(** * paper1_code.utils.time_series: alignment, spatial mean, seasonality filter

    A shallow embedding of [src/paper1_code/utils/time_series.py].

    The module works on [xarray.DataArray] objects.  Floating-point numbers
    are idealised: time coordinates, frequencies and the weighting factor
    are rationals ([Q]), series values that go through the Fourier
    transform are reals ([R]), and a missing value (NaN) is [None].
    Exceptions are values of [exn]; printed lines and plots are recorded
    in an event log, in the order the code emits them.

    The operations of xarray, numpy and scipy that the module calls
    ([shift], [dropna], [align], [mean], [assign_attrs], [rfft],
    [rfftfreq], [irfft], [argwhere], [linspace]) are defined here after
    their documented behaviour, on one-dimensional series for the Aligner
    and the filter.  An object the code changes in place (the list
    [dims], the buffer [arr.data]) is threaded through the calls
    explicitly. *)

From Stdlib Require Import Reals Lra QArith ZArith Lia Sorted.
From stdpp Require Import gmap strings list.

Local Open Scope string_scope.
Local Open Scope list_scope.

(** ** Shared data model *)

(** The Python exceptions the module can raise. *)
Inductive exn : Type :=
| ValueError_weighted_ends   (* "weighted_ends must be between 0 and 1" *)
| ValueError_align           (* xarray: index with duplicate values *)
| ValueError_dim (d : string) (* xarray: dimension not found *)
| ValueError_fft             (* numpy/scipy: zero data points *)
| ValueError_broadcast
| KeyError (k : string)
| AttributeError (a : string)
| IndexError
| TypeError_time
| ZeroDivisionError
| TypeError_deg2rad          (* numpy: deg2rad of a value that is no number *)
| ValueError_axis.           (* numpy: an axis named twice in a reduction *)

(** The conditions of the specification, by their names there. *)
Definition InvalidParameter : exn := ValueError_weighted_ends.
Definition UnsupportedTimeAxis : exn := TypeError_time.

Inductive result (A : Type) : Type :=
| Ok (a : A)
| Raise (e : exn).
Arguments Ok {A} a.
Arguments Raise {A} e.

(** Sequencing of fallible steps: the first exception ends the run. *)
Definition bind_result {A B : Type} (r : result A) (f : A -> result B)
    : result B :=
  match r with
  | Ok a => f a
  | Raise e => Raise e
  end.

Definition map_result {A B : Type} (f : A -> B) (r : result A) : result B :=
  match r with
  | Ok a => Ok (f a)
  | Raise e => Raise e
  end.

#[global] Instance result_fmap : FMap result := @map_result.
#[global] Instance result_ret : MRet result := @Ok.
#[global] Instance result_bind : MBind result :=
  fun A B f r => bind_result r f.

Inductive event : Type :=
| Print (line : string)
| ShowPlot.

(** The attribute map of an array: string keys to string values. *)
Abbreviation Attrs := (gmap string string).

(** The element type of a time axis, as the [isinstance] tests of the
    code see it: [float] (numpy float64), [cftime.datetime], or anything
    else. *)
Inductive axis_kind : Type := FloatK | DateK | OtherK.

Definition axis_kind_eqb (a b : axis_kind) : bool :=
  match a, b with
  | FloatK, FloatK | DateK, DateK | OtherK, OtherK => true
  | _, _ => false
  end.

(** A time axis: its element type and its coordinate values.  A float
    axis holds offsets in years, a date axis holds seconds from a fixed
    epoch, and an axis of another type (integers, for instance) is given
    by the numeric values of its elements. *)
Record TimeAxis : Type := mkAxis {
  kind : axis_kind;
  labels : list Q
}.

(** Python's [seq[i]] for [i >= 0]: [IndexError] out of range. *)
Definition py_index {A : Type} (l : list A) (i : nat) : result A :=
  match l !! i with
  | Some x => Ok x
  | None => Raise IndexError
  end.

Definition Qlt_bool (x y : Q) : bool := negb (Qle_bool y x).

(** ** The Aligner: [shift_arrays] *)

Module Aligner.

(** The view of an [xarray.DataArray] the Aligner works on: one value per
    time step ([None] is NaN), the time axis, and the attribute map.
    xarray keeps [data] and the time axis at the same length. *)
Record DataArray : Type := mkDA {
  data : list (option R);
  time : TimeAxis;
  attrs : Attrs
}.

(** Printed lines persist when a later statement raises: a computation
    is the log so far and the outcome. *)
Definition M (A : Type) : Type := (list event * result A)%type.

Definition ret {A : Type} (a : A) : M A := ([], Ok a).
Definition raise {A : Type} (e : exn) : M A := ([], Raise e).
Definition print (line : string) : M unit := ([Print line], Ok tt).

Definition bind {A B : Type} (m : M A) (f : A -> M B) : M B :=
  match m with
  | (l1, Ok a) => let '(l2, r) := f a in (l1 ++ l2, r)
  | (l1, Raise e) => (l1, Raise e)
  end.

#[global] Instance M_ret : MRet M := @ret.
#[global] Instance M_bind : MBind M := fun A B f m => bind m f.

(** [for i, arr in enumerate(array): array[i] = f(arr)], left to right,
    stopping at the first exception. *)
Fixpoint for_each {A B : Type} (f : A -> M B) (l : list A) : M (list B) :=
  match l with
  | [] => ret []
  | a :: l' => b ← f a; bs ← for_each f l'; ret (b :: bs)
  end.

(** The line printed for an identifier the table does not know. *)
Definition unknown_line : string := "Don't know how to shift this array.".

(** The [match case_0] statement (lines 53-74): the shift in time steps
    of an ensemble identifier, and the line printed for an unknown one. *)
Definition ensemble_shift (case_0 : string) (daily : bool) : M Z :=
  if String.eqb case_0 "ens1" then ret 0%Z
  else if String.eqb case_0 "ens2" then ret (if daily then 89 else 3)%Z
  else if String.eqb case_0 "ens3" then ret (if daily then 181 else 6)%Z
  else if String.eqb case_0 "ens4" then ret (if daily then 273 else 9)%Z
  else if String.eqb case_0 "ens5" then ret (if daily then 365 else 12)%Z
  else _u ← print unknown_line; ret 0%Z.

(** Line 52: [arr.attrs["ensemble"] if ens is None else ens]. *)
Definition case_of (ens : option string) (arr : DataArray) : M string :=
  match ens with
  | Some e => ret e
  | None =>
      match attrs arr !! "ensemble" with
      | Some e => ret e
      | None => raise (KeyError "ensemble")
      end
  end.

(** Lines 52-75: the shift applied to one array. *)
Definition shift_amount (ens : option string) (daily : bool) (custom : Z)
    (arr : DataArray) : M Z :=
  case_0 ← case_of ens arr;
  shift ← ensemble_shift case_0 daily;
  ret (if (custom =? 0)%Z then shift else custom).

(** xarray's [shift(time=k)]: the values move by [k] positions, the
    coordinates stay, and the vacated positions are filled with NaN. *)
Definition xr_shift_data (k : Z) (d : list (option R)) : list (option R) :=
  let n := length d in
  if (0 <=? k)%Z then
    let m := Nat.min (Z.to_nat k) n in
    replicate m None ++ take (n - m) d
  else
    let m := Nat.min (Z.to_nat (- k)) n in
    drop m d ++ replicate m None.

Definition xr_shift (k : Z) (arr : DataArray) : DataArray :=
  mkDA (xr_shift_data k (data arr)) (time arr) (attrs arr).

(** xarray's [dropna("time")]: the time steps whose value is NaN are
    dropped, with their coordinates. *)
Fixpoint dropna_rows (d : list (option R)) (ts : list Q)
    : list (option R) * list Q :=
  match d, ts with
  | v :: d', t :: ts' =>
      let '(dv, dt) := dropna_rows d' ts' in
      match v with
      | Some _ => (v :: dv, t :: dt)
      | None => (dv, dt)
      end
  | _, _ => ([], [])
  end.

Definition dropna (arr : DataArray) : DataArray :=
  let '(d, ts) := dropna_rows (data arr) (labels (time arr)) in
  mkDA d (mkAxis (kind (time arr)) ts) (attrs arr).

(** [isinstance(arr.time.data[0], float)] (line 76); reading element 0
    of an empty axis raises. *)
Definition first_is_float (ax : TimeAxis) : M bool :=
  match py_index (labels ax) 0 with
  | Ok _ => ret (axis_kind_eqb (kind ax) FloatK)
  | Raise e => raise e
  end.

(** The body of the loop (lines 52-79). *)
Definition shift_one (ens : option string) (daily : bool) (custom : Z)
    (arr : DataArray) : M DataArray :=
  shift ← shift_amount ens daily custom arr;
  is_float ← first_is_float (time arr);
  if (is_float : bool) then ret (dropna (xr_shift (- shift) arr))
  else ret (xr_shift (- shift) arr).

(** *** [xr.align] with its default inner join

    Labels are compared as pandas compares them: numbers by value,
    whatever their types (an int64 index and a float64 index with the
    same values are equal), and a date is never equal to a number.  When
    all time indexes are equal the arrays are returned as they are, each
    with its own index.  Otherwise every index is re-indexed onto the
    joined index (the labels of the first index that occur in every
    other one, in the order of the first), which pandas refuses for an
    index with duplicate values. *)

(** Element types whose labels can be equal: both dates, or both
    numbers. *)
Definition comparable (a b : axis_kind) : bool :=
  match a, b with
  | DateK, DateK => true
  | DateK, _ | _, DateK => false
  | _, _ => true
  end.

(** The element type of the intersection of two indexes: their common
    type; float64 for numbers of two types, object for dates and
    numbers. *)
Definition join_kind (a b : axis_kind) : axis_kind :=
  if axis_kind_eqb a b then a
  else if comparable a b then FloatK else OtherK.

Definition label_mem (x : Q) (l : list Q) : bool := existsb (Qeq_bool x) l.

Fixpoint has_duplicates (l : list Q) : bool :=
  match l with
  | [] => false
  | x :: l' => label_mem x l' || has_duplicates l'
  end.

Fixpoint labels_eqb (a b : list Q) : bool :=
  match a, b with
  | [], [] => true
  | x :: a', y :: b' => Qeq_bool x y && labels_eqb a' b'
  | _, _ => false
  end.

Definition axis_equals (a b : TimeAxis) : bool :=
  comparable (kind a) (kind b) && labels_eqb (labels a) (labels b).

Definition axis_intersection (a b : TimeAxis) : TimeAxis :=
  mkAxis (join_kind (kind a) (kind b))
    (if comparable (kind a) (kind b)
     then List.filter (fun x => label_mem x (labels b)) (labels a)
     else []).

(** Position of a label in an index. *)
Fixpoint get_loc (x : Q) (l : list Q) : option nat :=
  match l with
  | [] => None
  | y :: l' => if Qeq_bool x y then Some 0%nat else S <$> get_loc x l'
  end.

(** The value of [arr] at label [x]; NaN when [arr] has no such label. *)
Definition value_at (arr : DataArray) (x : Q) : option R :=
  match get_loc x (labels (time arr)) with
  | Some i => default None (data arr !! i)
  | None => None
  end.

Definition reindex_like (joined : TimeAxis) (arr : DataArray) : DataArray :=
  mkDA (map (value_at arr) (labels joined)) joined (attrs arr).

Definition xr_align (arrs : list DataArray) : result (list DataArray) :=
  match arrs with
  | [] => Ok []
  | a0 :: rest =>
      if forallb (fun a => axis_equals (time a0) (time a)) rest then Ok arrs
      else if existsb (fun a => has_duplicates (labels (time a))) arrs
      then Raise ValueError_align
      else
        let joined := foldl axis_intersection (time a0) (map time rest) in
        Ok (map (reindex_like joined) arrs)
  end.

Definition lift {A : Type} (r : result A) : M A := ([], r).

(** The loop and the final alignment (lines 51-80). *)
Definition shift_and_align (array : list DataArray) (ens : option string)
    (daily : bool) (custom : Z) : M (list DataArray) :=
  array ← for_each (shift_one ens daily custom) array;
  lift (xr_align array).

(** [shift_arrays] (lines 12-80).  [arrays[:]] copies the list, so the
    caller's list is not changed by the assignments to [array[i]]. *)
Definition shift_arrays (arrays : list DataArray) (weighted_ends : Q)
    (ens : option string) (daily : bool) (custom : Z) : M (list DataArray) :=
  let array := arrays in
  if Qlt_bool weighted_ends 0 || Qlt_bool 1 weighted_ends
  then raise ValueError_weighted_ends
  else shift_and_align array ens daily custom.

(** Two axes hold the same coordinate sequence: same length, same
    values, same order, the values being equal as pandas has them (two
    numbers by value, two dates by value, never a date and a number). *)
Definition same_axis (a b : TimeAxis) : Prop :=
  comparable (kind a) (kind b) = true /\
  Forall2 Qeq (labels a) (labels b).



(** Two monthly series of four steps, of ensembles 1 and 2. *)
Definition sample_ens1 : DataArray :=
  mkDA [Some 1%R; Some 2%R; Some 3%R; Some 4%R]
       (mkAxis FloatK [0; 1; 2; 3]%Q) {[ "ensemble" := "ens1" ]}.

Definition sample_ens2 : DataArray :=
  mkDA [Some 5%R; Some 6%R; Some 7%R; Some 8%R]
       (mkAxis FloatK [0; 1; 2; 3]%Q) {[ "ensemble" := "ens2" ]}.

(** The five identifiers of the table. *)
Definition recognised (id : string) : bool :=
  String.eqb id "ens1" || String.eqb id "ens2" || String.eqb id "ens3" ||
  String.eqb id "ens4" || String.eqb id "ens5".

(** The identifier line 52 reads for an array, when there is one. *)
Definition identifier (ens : option string) (arr : DataArray)
    : option string :=
  match ens with
  | Some e => Some e
  | None => attrs arr !! "ensemble"
  end.

(** The lines the loop prints for a batch: one for each array whose
    identifier is not in the table, in the order of the batch. *)
Definition warnings_of (ens : option string) (arrays : list DataArray)
    : list event :=
  flat_map (fun arr =>
              match identifier ens arr with
              | Some id => if recognised id then [] else [Print unknown_line]
              | None => []
              end) arrays.

(** xarray's invariant: as many values as time coordinates. *)
Definition well_shaped (arr : DataArray) : Prop :=
  length (data arr) = length (labels (time arr)).

(** A monthly series whose ensemble tag is not in the table, and one
    with no tag at all. *)
Definition sample_unknown : DataArray :=
  mkDA [Some 1%R; Some 2%R; Some 3%R; Some 4%R]
       (mkAxis FloatK [0; 1; 2; 3]%Q) {[ "ensemble" := "control" ]}.

Definition sample_untagged : DataArray :=
  mkDA [Some 1%R; Some 2%R; Some 3%R; Some 4%R]
       (mkAxis FloatK [0; 1; 2; 3]%Q) ∅.

(** A series on a date axis, in seconds. *)
Definition sample_dates : DataArray :=
  mkDA [Some 1%R; Some 2%R; Some 3%R; Some 4%R]
       (mkAxis DateK [0; 86400; 172800; 259200]%Q)
       {[ "ensemble" := "ens2" ]}.

(** The monthly series of ensemble 2 on an axis of integers. *)
Definition sample_ens2_int : DataArray :=
  mkDA [Some 5%R; Some 6%R; Some 7%R; Some 8%R]
       (mkAxis OtherK [0; 1; 2; 3]%Q) {[ "ensemble" := "ens2" ]}.

(** A series with no time step at all. *)
Definition sample_no_time : DataArray :=
  mkDA [] (mkAxis FloatK []) {[ "ensemble" := "control" ]}.

End Aligner.

(** ** The Spatial Reducer: [mean_flatten] *)

Module Reducer.

(** The view of an [xarray.DataArray] the Spatial Reducer works on: the
    numeric values (of a type [V] left abstract), the names of the axes,
    and the attribute map. *)
Record DataArray (V : Type) : Type := mkDA {
  values : V;
  dims : list string;
  attrs : Attrs
}.
Arguments mkDA {V} values dims attrs.
Arguments values {V} d.
Arguments dims {V} d.
Arguments attrs {V} d.

(** The arithmetic of the two reductions, on the values alone:
    [arr.weighted(cos(deg2rad(lat))).mean(lat)] and [arr.mean(dim=dims)]. *)
Record Numerics (V : Type) : Type := mkNumerics {
  weighted_mean_values : string -> V -> V;
  mean_values : list string -> V -> V
}.
Arguments weighted_mean_values {V} n lat v.
Arguments mean_values {V} n dims v.

(** The first argument of [mean_flatten]: one array or a list of them. *)
Inductive arrays_arg (V : Type) : Type :=
| One (arr : DataArray V)
| Many (arrs : list (DataArray V)).
Arguments One {V} arr.
Arguments Many {V} arrs.

Fixpoint for_each {A B : Type} (f : A -> result B) (l : list A)
    : result (list B) :=
  match l with
  | [] => Ok []
  | a :: l' => b ← f a; bs ← for_each f l'; Ok (b :: bs)
  end.

(** Python's [list.remove(x)]: the list without the first item equal to
    [x]; [None] stands for the [ValueError] of a list that has no [x]. *)
Fixpoint py_remove (x : string) (l : list string) : option (list string) :=
  match l with
  | [] => None
  | y :: l' =>
      if String.eqb y x then Some l'
      else cons y <$> py_remove x l'
  end.

(** Lines 125-134: the list of axes left for the plain mean, and
    [include_lat].  [dims.remove(lat)] changes the list object itself. *)
Definition split_dims (dims : list string) (lat : string)
    : list string * bool :=
  match py_remove lat dims with
  | Some dims' => (dims', true)
  | None => (dims, false)
  end.

(** How many times a name occurs in a list of axes. *)
Definition occurrences (x : string) (l : list string) : nat :=
  length (List.filter (fun y => String.eqb y x) l).

Section WithNumerics.
Context {V : Type}.
Variable num : Numerics V.

(** xarray's option [keep_attrs] for reductions; [false] by default: the
    result of a reduction has no attributes. *)
Variable keep_attrs : bool.

Definition reduced_attrs (a : Attrs) : Attrs := if keep_attrs then a else ∅.

(** [_latitude_mean] (lines 83-88).  [getattr(arr, lat)] finds the
    coordinate of the axis of that name or, when no axis has it, the
    attribute of that key, whose value is no number for [np.deg2rad];
    a name that is neither raises [AttributeError].  Every axis has its
    coordinate; a name that Python finds on the array object itself (a
    method, say) is outside this model. *)
Definition _latitude_mean (arr : DataArray V) (lat : string)
    : result (DataArray V) :=
  if bool_decide (lat ∈ dims arr)
  then Ok (mkDA (weighted_mean_values num lat (values arr))
                (List.filter (fun d => negb (String.eqb d lat)) (dims arr))
                (reduced_attrs (attrs arr)))
  else match attrs arr !! lat with
       | Some _ => Raise TypeError_deg2rad
       | None => Raise (AttributeError lat)
       end.

(** xarray's [arr.mean(dim=ds)]: every name of [ds] must be an axis,
    and no axis may be named twice. *)
Definition xr_mean (ds : list string) (arr : DataArray V)
    : result (DataArray V) :=
  match List.find (fun d => negb (bool_decide (d ∈ dims arr))) ds with
  | Some d => Raise (ValueError_dim d)
  | None =>
      if bool_decide (NoDup ds)
      then Ok (mkDA (mean_values num ds (values arr))
                    (List.filter (fun d => negb (bool_decide (d ∈ ds)))
                                 (dims arr))
                    (reduced_attrs (attrs arr)))
      else Raise ValueError_axis
  end.

(** xarray's [arr.assign_attrs(a)]: a new array whose attribute map is
    that of [arr] updated with [a]. *)
Definition assign_attrs (arr : DataArray V) (a : Attrs) : DataArray V :=
  mkDA (values arr) (dims arr) (a ∪ attrs arr).

(** Lines 135-142: a single array. *)
Definition mean_flatten_one (dims : list string) (include_lat : bool)
    (lat : string) (arrays : DataArray V) : result (DataArray V) :=
  arrays ← (if include_lat
            then tmp ← _latitude_mean arrays lat;
                 Ok (assign_attrs tmp (attrs arrays))
            else Ok arrays);
  arrays ← xr_mean dims arrays;
  Ok (assign_attrs arrays (attrs arrays)).

(** Lines 144-154: the body of the loop over a list. *)
Definition mean_flatten_item (dims : list string) (include_lat : bool)
    (lat : string) (arr : DataArray V) : result (DataArray V) :=
  arr_ ← (if include_lat
          then tmp ← _latitude_mean arr lat;
               Ok (assign_attrs tmp (attrs arr))
          else Ok arr);
  array_i ← xr_mean dims arr_;
  Ok (assign_attrs array_i (attrs arr_)).

(** [mean_flatten] (lines 103-155).  [dims] is [None] or the caller's
    list object; the first component of the result is that object after
    the call, the second is what the call returns or raises. *)
Definition mean_flatten (arrays : arrays_arg V) (dims : option (list string))
    (lat : string) : option (list string) * result (arrays_arg V) :=
  let dims0 := match dims with
               | None => ["lon"; "time"]
               | Some d => d
               end in
  let '(dims1, include_lat) := split_dims dims0 lat in
  (match dims with None => None | Some _ => Some dims1 end,
   match arrays with
   | One arr => One <$> mean_flatten_one dims1 include_lat lat arr
   | Many arrs =>
       Many <$> for_each (mean_flatten_item dims1 include_lat lat) arrs
   end).

End WithNumerics.

(** A gridded array with an ensemble attribute. *)
Definition sample_grid {V : Type} (v : V) : DataArray V :=
  mkDA v ["time"; "lat"; "lon"] {[ "ensemble" := "ens1" ]}.

(** Numerics over a one-point value type, for arrays whose values play
    no part. *)
Definition unit_numerics : Numerics unit :=
  mkNumerics unit (fun _ v => v) (fun _ v => v).

(** The axes a call asks to average out: the list passed as [dims], or
    the default of line 126. *)
Definition requested (dims : option (list string)) : list string :=
  match dims with
  | None => ["lon"; "time"]
  | Some d => d
  end.

End Reducer.

(** ** The Seasonality Filter: [remove_seasonality] *)

Module Filter.

(** The values of an array live in a numpy buffer that the code
    overwrites in place, and several array objects can share one buffer:
    the store maps buffer addresses to their contents.  An address the
    store does not hold reads as the empty buffer. *)
Abbreviation heap := (gmap nat (list R)).

(** The view of an [xarray.DataArray] the filter works on: the address
    of its values, the time axis, and the attribute map.  xarray keeps
    the buffer and the time axis at the same length. *)
Record DataArray : Type := mkDA {
  data : nat;
  time : TimeAxis;
  attrs : Attrs
}.

(** A computation runs on a store and leaves a store, the lines it
    printed, and what it returns or raises. *)
Definition M (A : Type) : Type := heap -> heap * list event * result A.

Definition ret {A : Type} (a : A) : M A := fun h => (h, [], Ok a).
Definition raise {A : Type} (e : exn) : M A := fun h => (h, [], Raise e).
Definition lift {A : Type} (r : result A) : M A := fun h => (h, [], r).
Definition emit (ev : event) : M unit := fun h => (h, [ev], Ok tt).
Definition print (line : string) : M unit := emit (Print line).

Definition bind {A B : Type} (m : M A) (f : A -> M B) : M B :=
  fun h =>
    match m h with
    | (h1, l1, Ok a) => let '(h2, l2, r) := f a h1 in (h2, l1 ++ l2, r)
    | (h1, l1, Raise e) => (h1, l1, Raise e)
    end.

#[global] Instance M_ret : MRet M := @ret.
#[global] Instance M_bind : MBind M := fun A B f m => bind m f.

Fixpoint for_each {A B : Type} (f : A -> M B) (l : list A) : M (list B) :=
  match l with
  | [] => ret []
  | a :: l' => b ← f a; bs ← for_each f l'; ret (b :: bs)
  end.

(** [arr.data], read and overwritten. *)
Definition read (l : nat) : M (list R) := fun h => (h, [], Ok (h !!! l)).
Definition write (l : nat) (d : list R) : M unit :=
  fun h => (<[l := d]> h, [], Ok tt).

(** [arr.copy()]: the values are copied into a new buffer. *)
Definition copy (arr : DataArray) : M DataArray :=
  fun h =>
    let l := fresh (dom h) in
    (<[l := h !!! data arr]> h, [], Ok (mkDA l (time arr) (attrs arr))).

(** *** Complex numbers and the real Fourier transforms *)

Definition C : Type := (R * R)%type.

Definition Cadd (a b : C) : C := (a.1 + b.1, a.2 + b.2)%R.
Definition Csub (a b : C) : C := (a.1 - b.1, a.2 - b.2)%R.
Definition Cscale (r : R) (a : C) : C := (r * a.1, r * a.2)%R.

(** The angle [2 pi j k / n]. *)
Definition angle (n j k : nat) : R := (2 * PI * INR (j * k) / INR n)%R.

(** [sum_j x_j exp(-2 pi i j k / n)], over the samples from index [j]. *)
Fixpoint dft_sum (n k j : nat) (x : list R) : C :=
  match x with
  | [] => (0, 0)%R
  | v :: x' =>
      Cadd (v * cos (angle n j k), - (v * sin (angle n j k)))%R
           (dft_sum n k (S j) x')
  end.

(** [scipy.fft.rfft]: the [n/2 + 1] bins of the one-sided transform. *)
Definition rfft (x : list R) : result (list C) :=
  let n := length x in
  if (n =? 0)%nat then Raise ValueError_fft
  else Ok (map (fun k => dft_sum n k 0 x) (seq 0 (n / 2 + 1))).

(** One term of the inverse: bin [k] of [m] bins, at sample [t] of [n].
    The first and the last bin count once, the others twice. *)
Definition inverse_term (m n t k : nat) (y : C) : R :=
  ((if (k =? 0)%nat || (k =? m - 1)%nat then 1 else 2) *
   (y.1 * cos (angle n k t) - y.2 * sin (angle n k t)))%R.

Fixpoint inverse_sum (m n t k : nat) (yf : list C) : R :=
  match yf with
  | [] => 0%R
  | y :: yf' => (inverse_term m n t k y + inverse_sum m n t (S k) yf')%R
  end.

(** [scipy.fft.irfft] with its default length: [2 (m - 1)] real samples
    from [m] bins. *)
Definition irfft (yf : list C) : result (list R) :=
  let m := length yf in
  let n := (2 * (m - 1))%nat in
  if (n =? 0)%nat then Raise ValueError_fft
  else Ok (map (fun t => (inverse_sum m n t 0 yf / INR n)%R) (seq 0 n)).

(** *** The frequency bins and the band *)

Definition sec_in_year : Q := 3600 * 24 * 365.

(** Lines 242-256: the sample spacing in years.  The flag tells a numpy
    scalar (a difference of float64 coordinates) from a Python float. *)
Definition sample_spacing (ax : TimeAxis) : result (Q * bool) :=
  _first ← py_index (labels ax) 0;
  match kind ax with
  | FloatK =>
      t1 ← py_index (labels ax) 1;
      t0 ← py_index (labels ax) 0;
      Ok ((t1 - t0)%Q, true)
  | DateK =>
      t11 ← py_index (labels ax) 11;
      t10 ← py_index (labels ax) 10;
      Ok (((t11 - t10) / sec_in_year)%Q, false)
  | OtherK => Raise TypeError_time
  end.

(** [scipy.fft.rfftfreq(n, d)]: the bins [k / (n d)].  With a zero
    spacing a Python float division raises, and a numpy one gives bins
    that are nan or infinite ([None]). *)
Definition rfftfreq (n : nat) (d : Q) (numpy_scalar : bool)
    : result (list (option Q)) :=
  let nd := (inject_Z (Z.of_nat n) * d)%Q in
  if Qeq_bool nd 0
  then if numpy_scalar then Ok (replicate (n / 2 + 1) None)
       else Raise ZeroDivisionError
  else Ok (map (fun k => Some (inject_Z (Z.of_nat k) * (1 / nd))%Q)
               (seq 0 (n / 2 + 1))).

(** [(xf > freq - radius) & (xf < freq + radius)] at one bin. *)
Definition in_band (freq radius : Q) (f : option Q) : bool :=
  match f with
  | Some x => Qlt_bool (freq - radius) x && Qlt_bool x (freq + radius)
  | None => false
  end.

(** [np.argwhere] of a mask: the positions that hold [true], from
    position [i] on. *)
Fixpoint argwhere (i : nat) (mask : list bool) : list nat :=
  match mask with
  | [] => []
  | b :: mask' => (if b then [i] else []) ++ argwhere (S i) mask'
  end.

(** Line 260. *)
Definition band_indices (xf : list (option Q)) (freq radius : Q) : list nat :=
  argwhere 0 (map (in_band freq radius) xf).

(** The builtin [any] on the column of indices: true when some index is
    not zero. *)
Definition py_any (idx : list nat) : bool :=
  existsb (fun i => negb (i =? 0)%nat) idx.

(** numpy's [a[i]] for an integer [i]: a negative index counts from the
    end. *)
Definition np_index {A : Type} (l : list A) (i : Z) : result A :=
  let j := (if i <? 0 then i + Z.of_nat (length l) else i)%Z in
  if (j <? 0)%Z then Raise IndexError else py_index l (Z.to_nat j).

(** [np.linspace(start, stop, num)], component by component. *)
Definition linspace (start stop : C) (num : nat) : list C :=
  map (fun j => Cadd start
                  (Cscale (INR j / INR (num - 1))%R (Csub stop start)))
      (seq 0 num).

(** [yf_clean[idx] = linear_fill]. *)
Fixpoint assign_at (yf : list C) (idx : list nat) (fill : list C) : list C :=
  match idx, fill with
  | i :: idx', v :: fill' => assign_at (<[i := v]> yf) idx' fill'
  | _, _ => yf
  end.

Definition warning_line : string :=
  "WARNING: No frequencies were removed! The radius is probably too small, try with a larger one.".
Definition hint_line : string :=
  "HINT: You can also view the before/after of this function by pasing in the `plot=True` keyword argument.".

(** Lines 263-266: the band is filled from the bin below its first
    index and the bin above its last. *)
Definition fill_band (yf : list C) (idx : list nat) : result (list C) :=
  below ← np_index yf (Z.of_nat (hd 0%nat idx) - 1);
  above ← np_index yf (Z.of_nat (List.last idx 0%nat) + 1);
  if forallb (fun i => i <? length yf)%nat idx
  then Ok (assign_at yf idx (linspace below above (length idx)))
  else Raise IndexError.

(** Lines 261-275. *)
Definition clean_spectrum (yf : list C) (idx : list nat) : M (list C) :=
  if py_any idx then lift (fill_band yf idx)
  else _w ← print warning_line; _h ← print hint_line; ret yf.

(** Line 282: [arr.data[: len(new)] = new]. *)
Definition overwrite_prefix (l : nat) (new : list R) : M unit :=
  old ← read l;
  if (length new <=? length old)%nat
  then write l (new ++ drop (length new) old)
  else raise ValueError_broadcast.

(** [_remove_seasonality_fourier] (lines 216-284).  The array returned,
    [arr[:]], is a new array object on the same buffer, coordinates and
    attributes. *)
Definition _remove_seasonality_fourier (arr : DataArray) (freq radius : Q)
    (plot : bool) : M DataArray :=
  '(sp, numpy_scalar) ← lift (sample_spacing (time arr));
  let n := length (labels (time arr)) in
  values ← read (data arr);
  yf ← lift (rfft values);
  xf ← lift (rfftfreq n sp numpy_scalar);
  let idx := band_indices xf freq radius in
  yf_clean ← clean_spectrum yf idx;
  new_f_clean ← lift (irfft yf_clean);
  _p ← (if plot then emit ShowPlot else ret tt);
  _o ← overwrite_prefix (data arr) new_f_clean;
  ret (mkDA (data arr) (time arr) (attrs arr)).

Inductive arrays_arg : Type :=
| One (arr : DataArray)
| Many (arrs : list DataArray).

(** [remove_seasonality] (lines 178-213). *)
Definition remove_seasonality (arrays : arrays_arg) (freq radius : Q)
    (plot : bool) : M arrays_arg :=
  match arrays with
  | One arr =>
      c ← copy arr;
      r ← _remove_seasonality_fourier c freq radius plot;
      ret (One r)
  | Many arrs =>
      array ← for_each (fun arr =>
                 _remove_seasonality_fourier arr freq radius plot) arrs;
      ret (Many array)
  end.

(** A computation that changes no buffer but the one at [l]. *)
Definition only_writes {A : Type} (l : nat) (m : M A) : Prop :=
  forall h h' log r, m h = (h', log, r) ->
  forall l', l' <> l -> h' !! l' = h !! l'.

(** Yearly float axes of three and of four samples, a series on each,
    and stores that hold their values at address 0. *)
Definition odd_axis : TimeAxis := mkAxis FloatK [0; 1; 2]%Q.
Definition even_axis : TimeAxis := mkAxis FloatK [0; 1; 2; 3]%Q.

Definition odd_series : DataArray :=
  mkDA 0 odd_axis {[ "ensemble" := "ens1" ]}.
Definition odd_heap : heap := {[ 0%nat := [0; 0; 5]%R ]}.

Definition even_series : DataArray :=
  mkDA 0 even_axis {[ "ensemble" := "ens1" ]}.
Definition even_heap : heap := {[ 0%nat := [1; 2; 3; 4]%R ]}.

(** The frequency bins of [odd_axis], 0 and 1/3, and of [even_axis],
    0, 1/4 and 1/2. *)
Definition odd_bins : list (option Q) :=
  [Some (0 * (1 / (3 * (1 - 0)))); Some (1 * (1 / (3 * (1 - 0))))]%Q.

Definition even_bins : list (option Q) :=
  [Some (0 * (1 / (4 * (1 - 0)))); Some (1 * (1 / (4 * (1 - 0))));
   Some (2 * (1 / (4 * (1 - 0))))]%Q.

(** Three daily samples on a date axis, in seconds. *)
Definition short_dates : DataArray :=
  mkDA 0 (mkAxis DateK [0; 86400; 172800]%Q) ∅.
Definition short_heap : heap := {[ 0%nat := [1; 2; 3]%R ]}.

(** A series on an axis of integers, one whose first two float
    coordinates coincide, and a date axis of twelve equal dates. *)
Definition int_series : DataArray := mkDA 0 (mkAxis OtherK [0; 1; 2; 3]%Q) ∅.

Definition stalled_series : DataArray :=
  mkDA 0 (mkAxis FloatK [0; 0; 1; 2]%Q) ∅.

Definition stalled_dates : DataArray :=
  mkDA 0 (mkAxis DateK (replicate 12 0%Q)) ∅.

(** A store that holds an all-zero series at address 0. *)
Definition zero_heap : heap := {[ 0%nat := replicate 4 0%R ]}.

End Filter.

(** ** The figure script: [gen_figs.main]

    A shallow embedding of [src/paper1_code/scripts/gen_figs.py].  The
    five scripts it calls are parameters: each one leaves a trace of what
    it printed and showed, and completes or raises. *)

Module GenFigs.

(** The exceptions a script can raise: [NotImplementedError], or any
    other one, by its name. *)
Inductive script_exn : Type :=
| NotImplementedError
| OtherError (name : string).

Inductive outcome : Type :=
| Done
| Raised (e : script_exn).

(** What a call leaves: its trace and its outcome. *)
Definition run : Type := (list event * outcome)%type.

(** The [main] functions of [gen_fig1] to [gen_fig5]; the first four
    take [show_output], the fifth takes no argument. *)
Record Scripts : Type := mkScripts {
  gen_fig1 : bool -> run;
  gen_fig2 : bool -> run;
  gen_fig3 : bool -> run;
  gen_fig4 : bool -> run;
  gen_fig5 : run
}.

(** One statement after another: the second runs when the first
    completes. *)
Definition and_then (r : run) (k : run) : run :=
  match r with
  | (t, Done) => (t ++ k.1, k.2)
  | (t, Raised e) => (t, Raised e)
  end.

(** [with contextlib.suppress(NotImplementedError): ...] *)
Definition suppress_not_implemented (r : run) : run :=
  match r with
  | (t, Raised NotImplementedError) => (t, Done)
  | _ => r
  end.

(** [main] (lines 9-16). *)
Definition main (s : Scripts) (show_output : bool) : run :=
  and_then (gen_fig1 s show_output)
    (and_then (gen_fig2 s show_output)
       (and_then (gen_fig3 s show_output)
          (and_then (gen_fig4 s show_output)
             (suppress_not_implemented (gen_fig5 s))))).

(** Scripts that print their name; the second one given as argument,
    the fifth is not implemented. *)
Definition sample_scripts (second : outcome) : Scripts :=
  mkScripts (fun _ => ([Print "fig1"], Done))
            (fun _ => ([Print "fig2"], second))
            (fun _ => ([Print "fig3"], Done))
            (fun _ => ([Print "fig4"], Done))
            ([Print "fig5"], Raised NotImplementedError).

End GenFigs.

(** * Properties *)

Lemma Qlt_bool_iff (x y : Q) : Qlt_bool x y = true <-> (x < y)%Q.
Proof.
  unfold Qlt_bool. rewrite negb_true_iff.
  split.
  - intros H. apply Qnot_le_lt. intros Hle.
    apply Qle_bool_iff in Hle. congruence.
  - intros H. destruct (Qle_bool y x) eqn:E; [|reflexivity].
    apply Qle_bool_iff in E. exfalso. exact (Qlt_not_le _ _ H E).
Qed.

Lemma bind_result_ok {A B : Type} (r : result A) (f : A -> result B) b :
  (r ≫= f) = Ok b -> exists a, r = Ok a /\ f a = Ok b.
Proof. destruct r as [a|e]; [eauto | discriminate]. Qed.

Lemma bind_result_raise {A B : Type} (r : result A) (f : A -> result B) e :
  (r ≫= f) = Raise e -> r = Raise e \/ exists a, r = Ok a /\ f a = Raise e.
Proof. destruct r as [a|e']; [eauto | intros [= ->]; auto]. Qed.

(** ** The Aligner *)

Section AlignerFacts.
Import Aligner.

(** *** Reasoning about the log-and-exception monad *)

Lemma bind_unfold {A B : Type} (m : M A) (f : A -> M B) :
  (m ≫= f) = bind m f.
Proof. reflexivity. Qed.

Lemma bind_ok_inv {A B : Type} (m : M A) (f : A -> M B) log b :
  (m ≫= f) = (log, Ok b) ->
  exists l1 a l2, m = (l1, Ok a) /\ f a = (l2, Ok b) /\ log = l1 ++ l2.
Proof.
  rewrite bind_unfold. unfold bind.
  destruct m as [l1 [a|e]]; [|discriminate].
  destruct (f a) as [l2 r] eqn:E. intros H. inversion H; subst.
  exists l1, a, l2. auto.
Qed.

Lemma bind_raise_inv {A B : Type} (m : M A) (f : A -> M B) log e :
  (m ≫= f) = (log, Raise e) ->
  m = (log, Raise e) \/
  exists l1 a l2, m = (l1, Ok a) /\ f a = (l2, Raise e) /\ log = l1 ++ l2.
Proof.
  rewrite bind_unfold. unfold bind.
  destruct m as [l1 [a|e']].
  - destruct (f a) as [l2 r] eqn:E. intros H. inversion H; subst.
    right. exists l1, a, l2. auto.
  - intros H. inversion H; subst. auto.
Qed.



Lemma for_each_raise {A B : Type} (f : A -> M B) (l : list A) log e :
  for_each f l = (log, Raise e) ->
  exists a lg, a ∈ l /\ f a = (lg, Raise e).
Proof.
  revert log. induction l as [|a l IH]; intros log H; simpl in H.
  - inversion H.
  - apply bind_raise_inv in H as [H | (l1 & b & l2 & _ & H & _)].
    + exists a, log. split; [left | exact H].
    + apply bind_raise_inv in H as [H | (l3 & bs & l4 & _ & H & _)].
      * destruct (IH _ H) as (a' & lg & Hin & Ha'). exists a', lg.
        split; [by right | exact Ha'].
      * inversion H.
Qed.

(** *** The shift of one array *)

Lemma shift_amount_case ens daily custom arr id :
  case_of ens arr = ret id ->
  shift_amount ens daily custom arr =
    (s ← ensemble_shift id daily; ret (if (custom =? 0)%Z then s else custom)).
Proof.
  intros H. unfold shift_amount. rewrite H.
  rewrite (bind_unfold (ret id)). unfold bind, ret.
  destruct (ensemble_shift id daily ≫= _) as [l r]. reflexivity.
Qed.

Lemma shift_one_result ens daily custom arr log s :
  shift_amount ens daily custom arr = (log, Ok s) ->
  labels (time arr) <> [] ->
  shift_one ens daily custom arr =
    (log, Ok (if axis_kind_eqb (kind (time arr)) FloatK
              then dropna (xr_shift (- s) arr) else xr_shift (- s) arr)).
Proof.
  intros Hs Hne. unfold shift_one. rewrite bind_unfold. rewrite Hs.
  unfold bind at 1. unfold first_is_float, py_index.
  destruct (labels (time arr)) as [|t ts] eqn:E; [congruence|]. simpl.
  destruct (axis_kind_eqb (kind (time arr)) FloatK);
    simpl; rewrite app_nil_r; reflexivity.
Qed.

Lemma shift_amount_raise ens daily custom arr log e :
  shift_amount ens daily custom arr = (log, Raise e) ->
  e = KeyError "ensemble".
Proof.
  unfold shift_amount, case_of, ensemble_shift.
  intros H. rewrite !bind_unfold in H.
  destruct ens as [id|]; [|destruct (attrs arr !! "ensemble") as [id|]];
    simpl in H; try (inversion H; reflexivity);
    repeat (destruct (String.eqb id _); [simpl in H; inversion H|]);
    simpl in H; inversion H.
Qed.

Lemma shift_one_raise ens daily custom arr log e :
  shift_one ens daily custom arr = (log, Raise e) ->
  e = KeyError "ensemble" \/ e = IndexError.
Proof.
  unfold shift_one. intros H.
  apply bind_raise_inv in H as [H | (l1 & s & l2 & _ & H & _)].
  - left. eapply shift_amount_raise; eauto.
  - apply bind_raise_inv in H as [H | (l3 & b & l4 & _ & H & _)].
    + right. unfold first_is_float, py_index in H.
      destruct (labels (time arr) !! 0%nat); inversion H. reflexivity.
    + destruct b; inversion H.
Qed.

Lemma xr_align_raise arrs e : xr_align arrs = Raise e -> e = ValueError_align.
Proof.
  unfold xr_align. destruct arrs as [|a0 rest]; [discriminate|].
  destruct (forallb _ _); [discriminate|].
  destruct (existsb _ _); [|discriminate].
  intros H. inversion H. reflexivity.
Qed.

Lemma shift_and_align_raise arrays ens daily custom log e :
  shift_and_align arrays ens daily custom = (log, Raise e) ->
  e = KeyError "ensemble" \/ e = IndexError \/ e = ValueError_align.
Proof.
  unfold shift_and_align. intros H.
  apply bind_raise_inv in H as [H | (l1 & out & l2 & _ & H & _)].
  - apply for_each_raise in H as (a & lg & _ & H).
    apply shift_one_raise in H. tauto.
  - unfold lift in H. inversion H as [[Hl Hr]].
    apply xr_align_raise in Hr. tauto.
Qed.

Lemma weight_check_true (w : Q) :
  Qlt_bool w 0 || Qlt_bool 1 w = true <-> (w < 0 \/ 1 < w)%Q.
Proof. rewrite orb_true_iff, !Qlt_bool_iff. reflexivity. Qed.

(** *** The shift table *)

(** C5: with no custom shift, the shift of an array is read off the
    fixed table at its ensemble identifier [id]: "ens1" gives 0, "ens2"
    gives 89 (daily) or 3, "ens3" 181 or 6, "ens4" 273 or 9, "ens5" 365
    or 12; any other identifier gives 0 and prints one line, and no
    identifier raises.  The array is then shifted by minus that amount
    along time. *)
Theorem shift_table (ens : option string) (daily : bool)
    (arr : DataArray) (id : string) :
  case_of ens arr = ret id ->
  (id = "ens1" -> shift_amount ens daily 0 arr = ([], Ok 0%Z)) /\
  (id = "ens2" ->
     shift_amount ens daily 0 arr = ([], Ok (if daily then 89 else 3)%Z)) /\
  (id = "ens3" ->
     shift_amount ens daily 0 arr = ([], Ok (if daily then 181 else 6)%Z)) /\
  (id = "ens4" ->
     shift_amount ens daily 0 arr = ([], Ok (if daily then 273 else 9)%Z)) /\
  (id = "ens5" ->
     shift_amount ens daily 0 arr = ([], Ok (if daily then 365 else 12)%Z)) /\
  (id <> "ens1" -> id <> "ens2" -> id <> "ens3" -> id <> "ens4" ->
   id <> "ens5" ->
     shift_amount ens daily 0 arr = ([Print unknown_line], Ok 0%Z)) /\
  (exists log s, shift_amount ens daily 0 arr = (log, Ok s) /\
     (labels (time arr) <> [] ->
      shift_one ens daily 0 arr =
        (log, Ok (if axis_kind_eqb (kind (time arr)) FloatK
                  then dropna (xr_shift (- s) arr)
                  else xr_shift (- s) arr)))).
Proof.
  intros Hid. rewrite (shift_amount_case _ _ _ _ _ Hid).
  assert (Hex : exists log s,
    (s ← ensemble_shift id daily; ret (if (0 =? 0)%Z then s else 0%Z))
      = (log, Ok s)).
  { unfold ensemble_shift.
    repeat (destruct (String.eqb id _); [eexists _, _; reflexivity|]).
    eexists _, _; reflexivity. }
  repeat split.
  - intros ->. reflexivity.
  - intros ->. destruct daily; reflexivity.
  - intros ->. destruct daily; reflexivity.
  - intros ->. destruct daily; reflexivity.
  - intros ->. destruct daily; reflexivity.
  - intros H1 H2 H3 H4 H5. unfold ensemble_shift.
    apply String.eqb_neq in H1, H2, H3, H4, H5.
    rewrite H1, H2, H3, H4, H5. reflexivity.
  - destruct Hex as (log & s & Hs). exists log, s. split; [exact Hs|].
    intros Hne. apply shift_one_result; [|exact Hne].
    rewrite (shift_amount_case _ _ _ _ _ Hid). exact Hs.
Qed.

Lemma shift_table_witness :
  case_of None sample_ens2 = ret "ens2" /\
  shift_amount None true 0 sample_ens2 = ([], Ok 89%Z).
Proof.
  assert (H : case_of None sample_ens2 = ret "ens2") by reflexivity.
  split; [exact H|].
  destruct (shift_table None true sample_ens2 "ens2" H) as (_ & H2 & _).
  exact (H2 eq_refl).
Defined.

(** *** The weighting factor *)

Lemma shift_arrays_in_range arrays w ens daily custom :
  (0 <= w)%Q -> (w <= 1)%Q ->
  shift_arrays arrays w ens daily custom =
  shift_and_align arrays ens daily custom.
Proof.
  intros H0 H1. unfold shift_arrays.
  destruct (Qlt_bool w 0 || Qlt_bool 1 w) eqn:E; [|reflexivity].
  apply weight_check_true in E as [E|E]; exfalso.
  - exact (Qlt_not_le _ _ E H0).
  - exact (Qlt_not_le _ _ E H1).
Qed.

Lemma shift_arrays_out_of_range arrays w ens daily custom :
  (w < 0 \/ 1 < w)%Q ->
  shift_arrays arrays w ens daily custom = ([], Raise InvalidParameter).
Proof.
  intros H. apply weight_check_true in H. unfold shift_arrays.
  rewrite H. reflexivity.
Qed.

(** C7: [shift_arrays] raises [InvalidParameter] exactly when the
    weighting factor is below 0 or above 1; it does so before the loop,
    with nothing printed and whatever the arrays are.  The factors -0.1
    and 1.1 fail; with 0 and 1 the call is the loop and the alignment,
    and does not raise [InvalidParameter]. *)
Theorem weighted_ends_validation (arrays : list DataArray) (w : Q)
    (ens : option string) (daily : bool) (custom : Z) :
  (snd (shift_arrays arrays w ens daily custom) = Raise InvalidParameter
     <-> (w < 0 \/ 1 < w)%Q) /\
  ((w < 0 \/ 1 < w)%Q ->
     shift_arrays arrays w ens daily custom = ([], Raise InvalidParameter)) /\
  shift_arrays arrays (-1 # 10) ens daily custom
    = ([], Raise InvalidParameter) /\
  shift_arrays arrays (11 # 10) ens daily custom
    = ([], Raise InvalidParameter) /\
  shift_arrays arrays 0 ens daily custom
    = shift_and_align arrays ens daily custom /\
  shift_arrays arrays 1 ens daily custom
    = shift_and_align arrays ens daily custom.
Proof.
  split; [split|].
  - intros H. unfold shift_arrays in H.
    destruct (Qlt_bool w 0 || Qlt_bool 1 w) eqn:E.
    + by apply weight_check_true.
    + destruct (shift_and_align arrays ens daily custom) as [log r] eqn:Hr.
      simpl in H. subst r.
      apply shift_and_align_raise in Hr as [Hr|[Hr|Hr]]; discriminate.
  - intros H. rewrite shift_arrays_out_of_range; [reflexivity | exact H].
  - split; [apply shift_arrays_out_of_range|].
    split; [apply shift_arrays_out_of_range; left; reflexivity|].
    split; [apply shift_arrays_out_of_range; right; reflexivity|].
    split; apply shift_arrays_in_range; discriminate.
Qed.

Lemma weighted_ends_validation_witness :
  (-1 # 10 < 0 \/ 1 < -1 # 10)%Q /\
  shift_arrays [sample_ens1; sample_ens2] (-1 # 10) None false 0
    = ([], Raise InvalidParameter).
Proof.
  assert (H : (-1 # 10 < 0 \/ 1 < -1 # 10)%Q) by (left; reflexivity).
  split; [exact H|].
  destruct (weighted_ends_validation [sample_ens1; sample_ens2] (-1 # 10)
              None false 0) as (_ & Hraise & _).
  exact (Hraise H).
Defined.

(** C8: any two weighting factors in [0, 1] give the same printed lines
    and the same arrays (or the same exception). *)
Theorem weighted_ends_unused (arrays : list DataArray) (a b : Q)
    (ens : option string) (daily : bool) (custom : Z) :
  (0 <= a)%Q -> (a <= 1)%Q -> (0 <= b)%Q -> (b <= 1)%Q ->
  shift_arrays arrays a ens daily custom =
  shift_arrays arrays b ens daily custom.
Proof.
  intros Ha0 Ha1 Hb0 Hb1.
  rewrite !shift_arrays_in_range by assumption. reflexivity.
Qed.

Lemma weighted_ends_unused_witness :
  (0 <= 1 # 4)%Q /\ (1 # 4 <= 1)%Q /\ (0 <= 1)%Q /\ (1 <= 1)%Q /\
  shift_arrays [sample_ens1; sample_ens2] (1 # 4) None false 0 =
  shift_arrays [sample_ens1; sample_ens2] 1 None false 0.
Proof.
  repeat (split; [discriminate|]).
  apply (weighted_ends_unused [sample_ens1; sample_ens2] (1 # 4) 1);
    discriminate.
Defined.

(** *** Alignment *)

Lemma labels_eqb_Forall2 (a b : list Q) :
  labels_eqb a b = true -> Forall2 Qeq a b.
Proof.
  revert b. induction a as [|x a IH]; intros [|y b] H; simpl in H;
    try discriminate; constructor.
  - apply andb_true_iff in H as [H _]. by apply Qeq_bool_iff.
  - apply andb_true_iff in H as [_ H]. auto.
Qed.

Lemma axis_kind_eqb_eq (a b : axis_kind) : axis_kind_eqb a b = true -> a = b.
Proof. destruct a, b; simpl; congruence. Qed.

Lemma comparable_refl (a : axis_kind) : comparable a a = true.
Proof. by destruct a. Qed.



Lemma axis_equals_same (a b : TimeAxis) :
  axis_equals a b = true -> same_axis a b.
Proof.
  unfold axis_equals, same_axis. intros H.
  apply andb_true_iff in H as [Hk Hl].
  split; [exact Hk | by apply labels_eqb_Forall2].
Qed.

Lemma same_axis_refl (a : TimeAxis) : same_axis a a.
Proof.
  split; [apply comparable_refl|].
  induction (labels a); constructor; [reflexivity | assumption].
Qed.





Lemma dropna_rows_mem (d : list (option R)) (ts : list Q) (x : Q) :
  label_mem x (snd (dropna_rows d ts)) = true -> label_mem x ts = true.
Proof.
  revert ts. induction d as [|v d IH]; intros [|t ts]; simpl; try done.
  destruct (dropna_rows d ts) as [dv dt] eqn:E.
  specialize (IH ts). rewrite E in IH. simpl in IH.
  destruct v; simpl; intros H.
  - apply orb_true_iff in H as [H|H]; apply orb_true_iff; auto.
  - apply orb_true_iff; auto.
Qed.







(** A float axis and an integer axis with the same values are equal
    indexes: the two arrays come back whole, each on its own axis. *)
Lemma number_axes_equal_by_value :
  shift_arrays [sample_ens1; sample_ens2_int] 1 (Some "ens1") false 0
    = ([], Ok [sample_ens1; sample_ens2_int]).
Proof. vm_compute. reflexivity. Qed.

End AlignerFacts.

(** ** More on the Aligner *)

Section AlignerExtra.
Import Aligner.

Lemma case_of_identifier ens arr id :
  identifier ens arr = Some id -> case_of ens arr = ret id.
Proof.
  unfold identifier, case_of. destruct ens as [e|].
  - intros [= ->]. reflexivity.
  - intros ->. reflexivity.
Qed.

Lemma ensemble_shift_log (id : string) (daily : bool) :
  exists s, ensemble_shift id daily =
            (if recognised id then [] else [Print unknown_line], Ok s).
Proof.
  unfold ensemble_shift, recognised.
  repeat (destruct (String.eqb id _); [simpl; eexists; reflexivity|]).
  simpl. eexists. reflexivity.
Qed.

Lemma shift_amount_log ens daily custom arr id :
  identifier ens arr = Some id ->
  exists s, shift_amount ens daily custom arr =
            (if recognised id then [] else [Print unknown_line], Ok s) /\
            (custom <> 0%Z -> s = custom).
Proof.
  intros Hid. rewrite (shift_amount_case _ _ _ _ _ (case_of_identifier _ _ _ Hid)).
  destruct (ensemble_shift_log id daily) as [s Hs].
  rewrite bind_unfold, Hs. unfold bind, ret.
  eexists. split; [by rewrite app_nil_r|].
  intros Hc. apply Z.eqb_neq in Hc. by rewrite Hc.
Qed.

(** A custom shift replaces the shift of the table for every array,
    whatever its identifier; the line for an identifier that is not in
    the table is printed all the same. *)
Theorem custom_shift_overrides (ens : option string) (daily : bool)
    (custom : Z) (arr : DataArray) (id : string) :
  custom <> 0%Z ->
  identifier ens arr = Some id ->
  shift_amount ens daily custom arr =
    (if recognised id then [] else [Print unknown_line], Ok custom).
Proof.
  intros Hc Hid.
  destruct (shift_amount_log ens daily custom arr id Hid) as (s & Hs & Hcust).
  rewrite Hs, (Hcust Hc). reflexivity.
Qed.

Lemma custom_shift_overrides_witness :
  shift_amount None true 365 sample_unknown
    = ([Print unknown_line], Ok 365%Z) /\
  shift_amount None true 365 sample_ens2 = ([], Ok 365%Z).
Proof.
  split.
  - apply (custom_shift_overrides None true 365 sample_unknown "control");
      [discriminate | reflexivity].
  - apply (custom_shift_overrides None true 365 sample_ens2 "ens2");
      [discriminate | reflexivity].
Defined.

(** *** What the loop prints *)

Lemma shift_one_log ens daily custom arr log out :
  shift_one ens daily custom arr = (log, Ok out) ->
  exists id, identifier ens arr = Some id /\
    log = (if recognised id then [] else [Print unknown_line]).
Proof.
  intros H. destruct (identifier ens arr) as [id|] eqn:Hid.
  - exists id. split; [reflexivity|].
    destruct (shift_amount_log ens daily custom arr id Hid) as (s & Hs & _).
    unfold shift_one in H. rewrite bind_unfold, Hs in H. unfold bind in H.
    destruct (first_is_float (time arr) ≫= _) as [l2 r] eqn:E.
    injection H as <- ->.
    apply bind_ok_inv in E as (l3 & b & l4 & Hb & Hr & ->).
    unfold first_is_float in Hb. destruct (py_index _ _); [|discriminate].
    injection Hb as <- <-. destruct (axis_kind_eqb _ _); injection Hr as <- _;
      by rewrite app_nil_r.
  - exfalso. unfold shift_one, shift_amount, case_of in H.
    unfold identifier in Hid. destruct ens; [discriminate|]. rewrite Hid in H.
    discriminate.
Qed.

Lemma for_each_log {A B : Type} (f : A -> M B) (l : list A) log out :
  for_each f l = (log, Ok out) -> log = flat_map (fun a => (f a).1) l.
Proof.
  revert log out. induction l as [|a l IH]; intros log out H; simpl in H.
  - by injection H as <- _.
  - apply bind_ok_inv in H as (l1 & b & l2 & Hb & H & ->).
    apply bind_ok_inv in H as (l3 & bs & l4 & Hbs & H & ->).
    injection H as <- _. simpl. rewrite Hb. simpl.
    rewrite (IH _ _ Hbs), app_nil_r. reflexivity.
Qed.

(** Whenever [shift_arrays] returns, what it printed is one line for
    each array whose identifier is not in the table, in the order of the
    batch, and nothing else. *)
Theorem shift_arrays_log (arrays : list DataArray) (w : Q)
    (ens : option string) (daily : bool) (custom : Z) log out :
  shift_arrays arrays w ens daily custom = (log, Ok out) ->
  log = warnings_of ens arrays.
Proof.
  unfold shift_arrays. destruct (_ || _); [discriminate|].
  unfold shift_and_align. intros H.
  apply bind_ok_inv in H as (l1 & shifted & l2 & Hloop & Hal & ->).
  unfold lift in Hal. injection Hal as <- _. rewrite app_nil_r.
  assert (Hall : forall a, a ∈ arrays ->
            exists lg b, shift_one ens daily custom a = (lg, Ok b)).
  { intros a Ha. destruct (shift_one ens daily custom a) as [lg [b|e]] eqn:E;
      [eauto|]. exfalso.
    clear -Hloop Ha E. revert l1 shifted Hloop.
    induction arrays as [|a0 arrays IH]; intros l1 shifted Hloop;
      [inversion Ha|].
    simpl in Hloop.
    apply bind_ok_inv in Hloop as (l3 & b0 & l4 & Hb0 & Hloop & _).
    apply bind_ok_inv in Hloop as (l5 & bs & l6 & Hbs & _ & _).
    apply elem_of_cons in Ha as [->|Ha]; [congruence|]. eauto. }
  rewrite (for_each_log _ _ _ _ Hloop). unfold warnings_of.
  clear Hloop. induction arrays as [|a arrays IH]; [reflexivity|].
  simpl. rewrite IH by (intros a' Ha'; apply Hall; by right).
  f_equal. destruct (Hall a) as (lg & b & Hb); [left|].
  rewrite Hb. simpl.
  destruct (shift_one_log _ _ _ _ _ _ Hb) as (id & -> & ->). reflexivity.
Qed.

Lemma sample_batch_run :
  exists log out,
    shift_arrays [sample_ens1; sample_unknown; sample_ens2] 1 None false 0
      = (log, Ok out).
Proof. eexists _, _. vm_compute. reflexivity. Defined.

Lemma shift_arrays_log_witness :
  exists log out,
    shift_arrays [sample_ens1; sample_unknown; sample_ens2] 1 None false 0
      = (log, Ok out) /\
    log = [Print unknown_line].
Proof.
  destruct sample_batch_run as (log & out & Hrun).
  exists log, out. split; [exact Hrun|].
  rewrite (shift_arrays_log _ _ _ _ _ _ _ Hrun). reflexivity.
Defined.

(** *** How one array is shifted *)

Lemma xr_shift_data_length (k : Z) (d : list (option R)) :
  length (xr_shift_data k d) = length d.
Proof.
  unfold xr_shift_data. destruct (0 <=? k)%Z.
  - rewrite length_app, length_replicate, length_take. lia.
  - rewrite length_app, length_replicate, length_drop. lia.
Qed.

Lemma xr_shift_data_back (s : nat) (d : list (option R)) :
  (s <= length d)%nat ->
  xr_shift_data (- Z.of_nat s) d = drop s d ++ replicate s None.
Proof.
  intros Hs. unfold xr_shift_data. destruct (0 <=? - Z.of_nat s)%Z eqn:E.
  - apply Z.leb_le in E. assert (s = 0%nat) as -> by lia. simpl.
    rewrite Nat.sub_0_r, firstn_all, app_nil_r. reflexivity.
  - replace (Z.to_nat (- - Z.of_nat s)) with s by lia.
    rewrite Nat.min_l by lia. reflexivity.
Qed.

Lemma dropna_rows_lengths (d : list (option R)) (ts : list Q) :
  length (dropna_rows d ts).1 = length (dropna_rows d ts).2.
Proof.
  revert ts. induction d as [|v d IH]; intros [|t ts]; simpl; try reflexivity.
  specialize (IH ts). destruct (dropna_rows d ts) as [dv dt].
  destruct v; simpl in *; lia.
Qed.

Lemma dropna_rows_trim (vs : list (option R)) (s : nat) (ts : list Q) :
  Forall is_Some vs -> length ts = (length vs + s)%nat ->
  dropna_rows (vs ++ replicate s None) ts = (vs, take (length vs) ts).
Proof.
  intros Hvs. revert ts. induction Hvs as [|v vs Hv _ IH]; intros ts Hlen.
  - simpl in *. clear Hlen. revert ts.
    induction s as [|s IHs]; intros [|t ts]; simpl; try reflexivity.
    rewrite IHs. reflexivity.
  - destruct ts as [|t ts]; [simpl in Hlen; lia|]. simpl.
    rewrite IH by (simpl in Hlen; lia).
    destruct Hv as [x ->]. reflexivity.
Qed.

(** On a float time axis, an array with no missing value that is
    shifted by [s] steps loses its last [s] coordinates: the value at
    the [j]-th coordinate becomes the value that was [s] steps later, and
    the attributes are kept. *)
Theorem float_shift_trims (ens : option string) (daily : bool) (custom : Z)
    (arr : DataArray) (log : list event) (s : nat) :
  kind (time arr) = FloatK ->
  well_shaped arr ->
  Forall is_Some (data arr) ->
  shift_amount ens daily custom arr = (log, Ok (Z.of_nat s)) ->
  (0 < length (data arr))%nat ->
  (s <= length (data arr))%nat ->
  shift_one ens daily custom arr =
    (log, Ok (mkDA (drop s (data arr))
                   (mkAxis FloatK
                      (take (length (data arr) - s) (labels (time arr))))
                   (attrs arr))).
Proof.
  intros Hk Hshape Hsome Hs Hpos Hle. unfold well_shaped in Hshape.
  rewrite (shift_one_result _ _ _ _ _ _ Hs).
  2:{ intros Hnil. rewrite Hnil in Hshape. simpl in Hshape. lia. }
  rewrite Hk. simpl. unfold dropna, xr_shift. simpl.
  rewrite xr_shift_data_back by exact Hle.
  rewrite dropna_rows_trim.
  - rewrite Hk, length_drop. reflexivity.
  - by apply Forall_drop.
  - rewrite length_drop. lia.
Qed.

Lemma float_shift_trims_witness :
  shift_one None false 0 sample_ens2 =
    ([], Ok (mkDA [Some 8%R] (mkAxis FloatK [0%Q])
                  {[ "ensemble" := "ens2" ]})).
Proof.
  apply (float_shift_trims None false 0 sample_ens2 [] 3).
  - reflexivity.
  - reflexivity.
  - repeat constructor; eexists; reflexivity.
  - reflexivity.
  - simpl. lia.
  - simpl. lia.
Defined.

(** On a time axis that is not a float axis, a shift by [s] steps keeps
    every coordinate: the values move [s] steps earlier and the last [s]
    values become missing. *)
Theorem date_shift_pads (ens : option string) (daily : bool) (custom : Z)
    (arr : DataArray) (log : list event) (s : nat) :
  kind (time arr) <> FloatK ->
  labels (time arr) <> [] ->
  shift_amount ens daily custom arr = (log, Ok (Z.of_nat s)) ->
  (s <= length (data arr))%nat ->
  shift_one ens daily custom arr =
    (log, Ok (mkDA (drop s (data arr) ++ replicate s None)
                   (time arr) (attrs arr))).
Proof.
  intros Hk Hne Hs Hle.
  rewrite (shift_one_result _ _ _ _ _ _ Hs Hne).
  destruct (kind (time arr)); [congruence| |]; simpl;
    unfold xr_shift; by rewrite xr_shift_data_back.
Qed.

Lemma date_shift_pads_witness :
  shift_one None false 0 sample_dates =
    ([], Ok (mkDA [Some 4%R; None; None; None] (time sample_dates)
                  (attrs sample_dates))).
Proof.
  apply (date_shift_pads None false 0 sample_dates [] 3).
  - discriminate.
  - discriminate.
  - reflexivity.
  - simpl. lia.
Defined.

(** *** What the batch keeps *)

Lemma loop_Forall2 {A B : Type} (f : A -> M B) (P : A -> B -> Prop)
    (l : list A) log (out : list B) :
  (forall a lg b, f a = (lg, Ok b) -> P a b) ->
  for_each f l = (log, Ok out) -> Forall2 P l out.
Proof.
  intros HP. revert log out.
  induction l as [|a l IH]; simpl; intros log out H.
  - injection H as _ <-. constructor.
  - apply bind_ok_inv in H as (l1 & b & l2 & Hb & H & _).
    apply bind_ok_inv in H as (l3 & bs & l4 & Hbs & H & _).
    injection H as _ <-. constructor; eauto.
Qed.

Lemma shift_one_keeps ens daily custom arr log out :
  shift_one ens daily custom arr = (log, Ok out) ->
  attrs out = attrs arr /\ (well_shaped arr -> well_shaped out).
Proof.
  unfold shift_one. intros H.
  apply bind_ok_inv in H as (l1 & s & l2 & _ & H & _).
  apply bind_ok_inv in H as (l3 & b & l4 & _ & H & _).
  destruct b; injection H as _ <-.
  - unfold dropna, xr_shift, well_shaped. simpl.
    pose proof (dropna_rows_lengths (xr_shift_data (- s) (data arr))
                  (labels (time arr))) as Hl.
    destruct (dropna_rows _ _) as [d ts]. simpl in *. auto.
  - unfold xr_shift, well_shaped. simpl. rewrite xr_shift_data_length. auto.
Qed.

Lemma reindex_all_keeps (joined : TimeAxis) (l : list DataArray) :
  Forall2 (fun a b => attrs b = attrs a /\
                      (well_shaped a -> well_shaped b))
          l (map (reindex_like joined) l).
Proof.
  induction l as [|a l IH]; simpl; constructor; [|exact IH].
  split; [reflexivity|]. intros _. unfold well_shaped. simpl.
  apply length_map.
Qed.

Lemma xr_align_keeps (arrs out : list DataArray) :
  xr_align arrs = Ok out ->
  Forall2 (fun a b => attrs b = attrs a /\
                      (well_shaped a -> well_shaped b)) arrs out.
Proof.
  unfold xr_align. destruct arrs as [|a0 rest].
  - intros [= <-]. constructor.
  - destruct (forallb _ rest).
    + intros [= <-]. apply Forall2_same_length_lookup_2; [reflexivity|].
      intros i a b Ha Hb. rewrite Ha in Hb. injection Hb as <-. auto.
    + destruct (existsb _ _); [discriminate|]. intros [= <-].
      apply (reindex_all_keeps _ (a0 :: rest)).
Qed.

Lemma shift_arrays_keeps (arrays : list DataArray) (w : Q)
    (ens : option string) (daily : bool) (custom : Z) log out :
  shift_arrays arrays w ens daily custom = (log, Ok out) ->
  Forall2 (fun a b => attrs b = attrs a /\
                      (well_shaped a -> well_shaped b)) arrays out.
Proof.
  unfold shift_arrays. destruct (_ || _); [discriminate|].
  unfold shift_and_align. intros H.
  apply bind_ok_inv in H as (l1 & shifted & l2 & Hloop & Hal & _).
  unfold lift in Hal. injection Hal as _ Hal.
  apply (loop_Forall2 _ (fun a b => attrs b = attrs a /\
            (well_shaped a -> well_shaped b))) in Hloop.
  2:{ intros a lg b Hb. by apply shift_one_keeps in Hb. }
  apply xr_align_keeps in Hal.
  clear -Hloop Hal. revert out Hal.
  induction Hloop as [|a b l l' [Ha Hs] _ IH]; intros out Hal;
    inversion Hal as [|? c ? out' [Hc Hsc] Hrest]; subst; constructor.
  - split; [congruence | auto].
  - by apply IH.
Qed.

(** Whenever [shift_arrays] returns, the array at each position of the
    result carries the attribute map of the array at that position of
    the batch. *)
Theorem shift_arrays_attrs (arrays : list DataArray) (w : Q)
    (ens : option string) (daily : bool) (custom : Z) log out :
  shift_arrays arrays w ens daily custom = (log, Ok out) ->
  Forall2 (fun a b => attrs b = attrs a) arrays out.
Proof.
  intros H. apply shift_arrays_keeps in H.
  eapply Forall2_impl; [exact H|]. by intros a b [Ha _].
Qed.

Lemma shift_arrays_attrs_witness :
  exists log out,
    shift_arrays [sample_ens1; sample_unknown; sample_ens2] 1 None false 0
      = (log, Ok out) /\
    Forall2 (fun a b => attrs b = attrs a)
            [sample_ens1; sample_unknown; sample_ens2] out.
Proof.
  destruct sample_batch_run as (log & out & Hrun).
  exists log, out. split; [exact Hrun|].
  exact (shift_arrays_attrs _ _ _ _ _ _ _ Hrun).
Defined.

(** Whenever [shift_arrays] returns for a batch whose arrays have as
    many values as time coordinates, so has every array of the result. *)
Theorem shift_arrays_well_shaped (arrays : list DataArray) (w : Q)
    (ens : option string) (daily : bool) (custom : Z) log out :
  Forall well_shaped arrays ->
  shift_arrays arrays w ens daily custom = (log, Ok out) ->
  Forall well_shaped out.
Proof.
  intros Hin H. apply shift_arrays_keeps in H.
  induction H as [|a b l l' [_ Hs] _ IH]; [constructor|].
  inversion Hin; subst. constructor; auto.
Qed.

Lemma sample_batch_well_shaped :
  Forall well_shaped [sample_ens1; sample_unknown; sample_ens2].
Proof. repeat constructor. Defined.

Lemma shift_arrays_well_shaped_witness :
  exists log out,
    shift_arrays [sample_ens1; sample_unknown; sample_ens2] 1 None false 0
      = (log, Ok out) /\
    Forall well_shaped out.
Proof.
  destruct sample_batch_run as (log & out & Hrun).
  exists log, out. split; [exact Hrun|].
  exact (shift_arrays_well_shaped _ _ _ _ _ _ _
           sample_batch_well_shaped Hrun).
Defined.

(** *** The inner join *)

Lemma label_mem_In (x : Q) (l : list Q) : In x l -> label_mem x l = true.
Proof.
  intros H. unfold label_mem. apply existsb_exists. exists x.
  split; [exact H|]. apply Qeq_bool_iff. reflexivity.
Qed.

Lemma label_mem_Forall2 (x : Q) (l l' : list Q) :
  Forall2 Qeq l l' -> label_mem x l = label_mem x l'.
Proof.
  induction 1 as [|y y' l l' Hy _ IH]; [reflexivity|]. simpl. rewrite IH.
  f_equal. destruct (Qeq_bool x y) eqn:E, (Qeq_bool x y') eqn:E';
    try reflexivity.
  - apply Qeq_bool_iff in E. apply Qeq_bool_neq in E'. exfalso. apply E'.
    by rewrite E.
  - apply Qeq_bool_iff in E'. apply Qeq_bool_neq in E. exfalso. apply E.
    by rewrite E', Hy.
Qed.

Lemma label_mem_trans (x y : Q) (l : list Q) :
  Qeq_bool x y = true -> label_mem y l = true -> label_mem x l = true.
Proof.
  intros Hxy H. unfold label_mem in *.
  apply existsb_exists in H as (z & Hz & Hyz). apply existsb_exists.
  exists z. split; [exact Hz|]. apply Qeq_bool_iff in Hxy, Hyz.
  apply Qeq_bool_iff. by rewrite Hxy.
Qed.

Lemma label_mem_exists (x : Q) (l : list Q) :
  label_mem x l = true -> exists y, In y l /\ Qeq_bool x y = true.
Proof. intros H. by apply existsb_exists in H. Qed.

Lemma axis_intersection_labels (a b : TimeAxis) (x : Q) :
  In x (labels (axis_intersection a b)) ->
  In x (labels a) /\ label_mem x (labels b) = true.
Proof.
  unfold axis_intersection. simpl.
  destruct (comparable _ _); [|intros []].
  intros H. by apply filter_In in H.
Qed.

Lemma joined_labels (acc : TimeAxis) (l : list TimeAxis) (x : Q) :
  In x (labels (foldl axis_intersection acc l)) ->
  In x (labels acc) /\ forall t, In t l -> label_mem x (labels t) = true.
Proof.
  revert acc. induction l as [|t l IH]; intros acc H; simpl in H.
  - split; [exact H | intros t []].
  - apply IH in H as [H Hl]. apply axis_intersection_labels in H as [H Ht].
    split; [exact H|]. intros t' [<-|Ht']; auto.
Qed.

Lemma xr_align_labels (arrs out : list DataArray) :
  xr_align arrs = Ok out ->
  forall b x a, In b out -> In x (labels (time b)) -> In a arrs ->
  label_mem x (labels (time a)) = true.
Proof.
  unfold xr_align. destruct arrs as [|a0 rest].
  - intros _ b x a _ _ [].
  - destruct (forallb _ rest) eqn:Hall.
    + intros [= <-] b x a Hb Hx Ha.
      assert (Hfirst : forall c, In c (a0 :: rest) ->
                Forall2 Qeq (labels (time a0)) (labels (time c))).
      { intros c [<-|Hc].
        - apply same_axis_refl.
        - rewrite forallb_forall in Hall.
          apply axis_equals_same. by apply Hall. }
      rewrite <- (label_mem_Forall2 x _ _ (Hfirst a Ha)).
      rewrite (label_mem_Forall2 x _ _ (Hfirst b Hb)).
      by apply label_mem_In.
    + destruct (existsb _ _); [discriminate|]. intros [= <-] b x a Hb Hx Ha.
      change (In b (map (reindex_like
                (foldl axis_intersection (time a0) (map time rest)))
                (a0 :: rest))) in Hb.
      apply in_map_iff in Hb as (b' & <- & _). simpl in Hx.
      apply joined_labels in Hx as [Hx0 Hrest].
      destruct Ha as [<-|Ha]; [by apply label_mem_In|].
      apply Hrest. by apply in_map.
Qed.

Lemma shift_one_labels ens daily custom arr log out x :
  shift_one ens daily custom arr = (log, Ok out) ->
  label_mem x (labels (time out)) = true ->
  label_mem x (labels (time arr)) = true.
Proof.
  unfold shift_one. intros H.
  apply bind_ok_inv in H as (l1 & s & l2 & _ & H & _).
  apply bind_ok_inv in H as (l3 & b & l4 & _ & H & _).
  destruct b; injection H as _ <-; [|auto].
  unfold dropna, xr_shift. simpl.
  pose proof (dropna_rows_mem (xr_shift_data (- s) (data arr))
                (labels (time arr)) x) as Hm.
  destruct (dropna_rows _ _) as [d ts]. exact Hm.
Qed.

(** Whenever [shift_arrays] returns, every time coordinate of a
    returned array is (by value) a time coordinate of every array of the
    batch: the result lies on the intersection of the time axes. *)
Theorem aligned_labels_common (arrays : list DataArray) (w : Q)
    (ens : option string) (daily : bool) (custom : Z) log out :
  shift_arrays arrays w ens daily custom = (log, Ok out) ->
  forall b x a, In b out -> In x (labels (time b)) -> In a arrays ->
  label_mem x (labels (time a)) = true.
Proof.
  unfold shift_arrays. destruct (_ || _); [discriminate|].
  unfold shift_and_align. intros H b x a Hb Hx Ha.
  apply bind_ok_inv in H as (l1 & shifted & l2 & Hloop & Hal & _).
  unfold lift in Hal. injection Hal as _ Hal.
  apply (loop_Forall2 _ (fun a a' => forall x,
            label_mem x (labels (time a')) = true ->
            label_mem x (labels (time a)) = true)) in Hloop.
  2:{ intros a1 lg b1 Hb1 x1. by apply (shift_one_labels _ _ _ _ _ _ _ Hb1). }
  apply list_elem_of_In, list_elem_of_lookup in Ha as [i Hi].
  destruct (Forall2_lookup_l _ _ _ _ _ Hloop Hi) as (a' & Ha' & Hsub).
  apply Hsub. apply (xr_align_labels _ _ Hal b x a' Hb Hx).
  apply list_elem_of_In, list_elem_of_lookup. eauto.
Qed.

Lemma aligned_labels_common_witness :
  exists log out,
    shift_arrays [sample_ens1; sample_unknown; sample_ens2] 1 None false 0
      = (log, Ok out) /\
    forall b x a, In b out -> In x (labels (time b)) ->
      In a [sample_ens1; sample_unknown; sample_ens2] ->
      label_mem x (labels (time a)) = true.
Proof.
  destruct sample_batch_run as (log & out & Hrun).
  exists log, out. split; [exact Hrun|].
  exact (aligned_labels_common _ _ _ _ _ _ _ Hrun).
Defined.

(** *** An empty time axis *)

(** An array whose time axis is empty makes the loop raise [IndexError]
    at line 76, after the line for its identifier has been printed. *)
Theorem empty_time_axis_raises (ens : option string) (daily : bool)
    (custom : Z) (arr : DataArray) (id : string) :
  identifier ens arr = Some id ->
  labels (time arr) = [] ->
  shift_one ens daily custom arr =
    (if recognised id then [] else [Print unknown_line], Raise IndexError).
Proof.
  intros Hid Hnil.
  destruct (shift_amount_log ens daily custom arr id Hid) as (s & Hs & _).
  unfold shift_one. rewrite bind_unfold, Hs. unfold bind.
  unfold first_is_float, py_index. rewrite Hnil. simpl.
  by rewrite app_nil_r.
Qed.

Lemma empty_time_axis_raises_witness :
  shift_one None true 0 sample_no_time
    = ([Print unknown_line], Raise IndexError).
Proof.
  apply (empty_time_axis_raises None true 0 sample_no_time "control");
    reflexivity.
Defined.

(** *** A missing ensemble tag *)

Lemma shift_one_ok ens daily custom arr id :
  identifier ens arr = Some id -> labels (time arr) <> [] ->
  exists out, shift_one ens daily custom arr =
    (if recognised id then [] else [Print unknown_line], Ok out).
Proof.
  intros Hid Hne.
  destruct (shift_amount_log ens daily custom arr id Hid) as (s & Hs & _).
  rewrite (shift_one_result _ _ _ _ _ _ Hs Hne). eauto.
Qed.

Lemma for_each_stops {A B : Type} (f : A -> M B) (pre rest : list A)
    (a : A) lg e :
  (forall p, In p pre -> exists b, f p = ((f p).1, Ok b)) ->
  f a = (lg, Raise e) ->
  for_each f (pre ++ a :: rest) =
    (flat_map (fun p => (f p).1) pre ++ lg, Raise e).
Proof.
  intros Hpre Ha. induction pre as [|p pre IH]; simpl.
  - rewrite bind_unfold, Ha. reflexivity.
  - destruct (Hpre p) as [b Hb]; [by left|].
    rewrite bind_unfold, Hb. unfold bind.
    rewrite bind_unfold, IH by (intros q Hq; apply Hpre; by right).
    simpl. by rewrite app_assoc.
Qed.

(** With no override, the call stops at the first array that has no
    "ensemble" attribute: it raises [KeyError], having printed the lines
    of the arrays before that one, and the alignment is not reached.
    (The arrays before it have a tag and a time axis that is not
    empty.) *)
Theorem missing_ensemble_raises (pre rest : list DataArray)
    (arr : DataArray) (w : Q) (daily : bool) (custom : Z) :
  (0 <= w)%Q -> (w <= 1)%Q ->
  (forall p, In p pre ->
     is_Some (attrs p !! "ensemble") /\ labels (time p) <> []) ->
  attrs arr !! "ensemble" = None ->
  shift_arrays (pre ++ arr :: rest) w None daily custom =
    (warnings_of None pre, Raise (KeyError "ensemble")).
Proof.
  intros H0 H1 Hpre Hnone.
  rewrite shift_arrays_in_range by assumption.
  unfold shift_and_align. rewrite bind_unfold.
  rewrite (for_each_stops _ pre rest arr [] (KeyError "ensemble")).
  - simpl. rewrite app_nil_r. f_equal. unfold warnings_of.
    induction pre as [|p pre IH]; [reflexivity|]. simpl.
    rewrite IH by (intros q Hq; apply Hpre; by right). f_equal.
    destruct (Hpre p) as [[id Hid] Hne]; [by left|].
    destruct (shift_one_ok None daily custom p id Hid Hne) as [out Hout].
    rewrite Hout. simpl. unfold identifier. by rewrite Hid.
  - intros p Hp. destruct (Hpre p Hp) as [[id Hid] Hne].
    destruct (shift_one_ok None daily custom p id Hid Hne) as [out Hout].
    exists out. rewrite Hout. reflexivity.
  - unfold shift_one, shift_amount, case_of. rewrite Hnone. reflexivity.
Qed.

Lemma missing_ensemble_raises_witness :
  shift_arrays [sample_unknown; sample_untagged; sample_ens2] 1 None false 0
    = ([Print unknown_line], Raise (KeyError "ensemble")).
Proof.
  apply (missing_ensemble_raises [sample_unknown] [sample_ens2]
           sample_untagged 1 false 0).
  - discriminate.
  - discriminate.
  - intros p [<-|[]]. split; [eexists; reflexivity | discriminate].
  - reflexivity.
Defined.

(** *** A batch that is aligned already *)

Lemma dropna_rows_id (d : list (option R)) (ts : list Q) :
  Forall is_Some d -> length d = length ts -> dropna_rows d ts = (d, ts).
Proof.
  intros Hd. revert ts. induction Hd as [|v d [x ->] _ IH]; intros [|t ts] Hl;
    simpl in *; try lia; [reflexivity|].
  rewrite IH by lia. reflexivity.
Qed.

Lemma xr_shift_zero (arr : DataArray) : xr_shift (- 0) arr = arr.
Proof.
  unfold xr_shift. destruct arr as [d ax a]. simpl. f_equal.
  change (xr_shift_data (- 0) d) with (xr_shift_data (- Z.of_nat 0) d).
  rewrite (xr_shift_data_back 0 d) by lia. simpl. apply app_nil_r.
Qed.

(** A batch tagged as ensemble 1 by the override, with no custom shift,
    whose arrays share one time axis and, on a float axis, have no
    missing value, is returned as it is, and nothing is printed. *)
Theorem reference_batch_unchanged (arrays : list DataArray) (w : Q)
    (daily : bool) :
  (0 <= w)%Q -> (w <= 1)%Q ->
  (forall a, In a arrays ->
     well_shaped a /\ labels (time a) <> [] /\
     (kind (time a) = FloatK -> Forall is_Some (data a))) ->
  (forall a b, In a arrays -> In b arrays ->
     axis_equals (time a) (time b) = true) ->
  shift_arrays arrays w (Some "ens1") daily 0 = ([], Ok arrays).
Proof.
  intros H0 H1 Hok Heq. rewrite shift_arrays_in_range by assumption.
  assert (Hone : forall a, In a arrays ->
            shift_one (Some "ens1") daily 0 a = ([], Ok a)).
  { intros a Ha. destruct (Hok a Ha) as (Hshape & Hne & Hsome).
    rewrite (shift_one_result _ _ _ _ [] 0%Z); [|reflexivity|exact Hne].
    f_equal. f_equal. rewrite xr_shift_zero.
    destruct (kind (time a)) eqn:Hk; simpl; try reflexivity.
    unfold dropna. rewrite dropna_rows_id; [|by apply Hsome|exact Hshape].
    destruct a as [d [k ts] at']. simpl in *. by subst. }
  assert (Hloop : for_each (shift_one (Some "ens1") daily 0) arrays
                  = ([], Ok arrays)).
  { clear -Hone. induction arrays as [|a arrays IH]; [reflexivity|].
    simpl. rewrite bind_unfold, Hone by (by left). unfold bind.
    rewrite bind_unfold, IH by (intros b Hb; apply Hone; by right).
    reflexivity. }
  unfold shift_and_align. rewrite bind_unfold, Hloop. unfold bind, lift.
  simpl. f_equal. unfold xr_align. destruct arrays as [|a0 rest];
    [reflexivity|].
  replace (forallb _ rest) with true; [reflexivity|].
  symmetry. apply forallb_forall. intros a Ha.
  apply Heq; [by left | by right].
Qed.

Lemma reference_batch_unchanged_witness :
  shift_arrays [sample_ens2; sample_unknown] (1 # 2) (Some "ens1") true 0
    = ([], Ok [sample_ens2; sample_unknown]).
Proof.
  apply (reference_batch_unchanged [sample_ens2; sample_unknown]).
  - discriminate.
  - discriminate.
  - intros a [<-|[<-|[]]];
      (split; [reflexivity|split; [discriminate|]]);
      intros _; repeat constructor; eexists; reflexivity.
  - intros a b [<-|[<-|[]]] [<-|[<-|[]]]; reflexivity.
Defined.

End AlignerExtra.

(** ** The Spatial Reducer *)

Section ReducerFacts.
Import Reducer.
Context {V : Type}.
Variable num : Numerics V.

Lemma reduced_attrs_absorbed (keep : bool) (a : Attrs) :
  a ∪ reduced_attrs keep a = a.
Proof.
  unfold reduced_attrs. destruct keep.
  - apply map_union_idemp.
  - apply map_union_empty.
Qed.

Lemma latitude_step_attrs keep (include_lat : bool) lat
    (arr arr_ : DataArray V) :
  (if include_lat
   then tmp ← _latitude_mean num keep arr lat; Ok (assign_attrs tmp (attrs arr))
   else Ok arr) = Ok arr_ ->
  attrs arr_ = attrs arr.
Proof.
  destruct include_lat.
  - intros H. apply bind_result_ok in H as (tmp & Htmp & H).
    injection H as <-. unfold _latitude_mean in Htmp.
    destruct (bool_decide (lat ∈ dims arr));
      [|destruct (attrs arr !! lat); discriminate].
    injection Htmp as <-.
    simpl. apply reduced_attrs_absorbed.
  - intros [= <-]. reflexivity.
Qed.

Lemma xr_mean_attrs keep ds (arr out : DataArray V) :
  xr_mean num keep ds arr = Ok out ->
  attrs out = reduced_attrs keep (attrs arr).
Proof.
  unfold xr_mean. destruct (List.find _ ds); [discriminate|].
  destruct (bool_decide (NoDup ds)); [|discriminate].
  intros [= <-]. reflexivity.
Qed.

(** Each array of a list keeps its attribute map. *)
Lemma mean_flatten_item_attrs keep ds include_lat lat (arr out : DataArray V) :
  mean_flatten_item num keep ds include_lat lat arr = Ok out ->
  attrs out = attrs arr.
Proof.
  unfold mean_flatten_item. intros H.
  apply bind_result_ok in H as (arr_ & Harr_ & H).
  apply latitude_step_attrs in Harr_.
  apply bind_result_ok in H as (array_i & Hmean & H).
  apply xr_mean_attrs in Hmean. injection H as <-. simpl.
  rewrite Hmean, reduced_attrs_absorbed. exact Harr_.
Qed.

Lemma for_each_Forall2 {A B : Type} (f : A -> result B) (P : A -> B -> Prop)
    (l : list A) (out : list B) :
  (forall a b, f a = Ok b -> P a b) ->
  for_each f l = Ok out -> Forall2 P l out.
Proof.
  intros HP. revert out. induction l as [|a l IH]; simpl; intros out H.
  - injection H as <-. constructor.
  - apply bind_result_ok in H as (b & Hb & H).
    apply bind_result_ok in H as (bs & Hbs & H).
    injection H as <-. constructor; auto.
Qed.

Lemma mean_flatten_many_attrs keep arrs dims lat st out :
  mean_flatten num keep (Many arrs) dims lat = (st, Ok (Many out)) ->
  Forall2 (fun a b => attrs b = attrs a) arrs out.
Proof.
  unfold mean_flatten. destruct (split_dims _ lat) as [dims1 include_lat].
  intros [= _ H].
  destruct (for_each _ arrs) as [bs|e] eqn:E; [|discriminate].
  injection H as <-.
  eapply for_each_Forall2; [|exact E].
  intros a b. apply mean_flatten_item_attrs.
Qed.

(** A single array comes back with the attributes its own mean was left
    with: none, under xarray's default. *)
Lemma mean_flatten_one_attrs ds include_lat lat (arr out : DataArray V) :
  mean_flatten_one num false ds include_lat lat arr = Ok out ->
  attrs out = ∅.
Proof.
  unfold mean_flatten_one. intros H.
  apply bind_result_ok in H as (arr_ & _ & H).
  apply bind_result_ok in H as (arrays & Hmean & H).
  apply xr_mean_attrs in Hmean. injection H as <-. simpl.
  rewrite Hmean. simpl. apply map_union_empty.
Qed.

(** With [keep_attrs] switched on, a single array keeps its attribute
    map as well. *)
Lemma mean_flatten_one_attrs_kept ds include_lat lat (arr out : DataArray V) :
  mean_flatten_one num true ds include_lat lat arr = Ok out ->
  attrs out = attrs arr.
Proof.
  unfold mean_flatten_one. intros H.
  apply bind_result_ok in H as (arr_ & Harr_ & H).
  apply latitude_step_attrs in Harr_.
  apply bind_result_ok in H as (arrays & Hmean & H).
  apply xr_mean_attrs in Hmean. injection H as <-. simpl.
  rewrite Hmean. simpl. rewrite map_union_idemp. exact Harr_.
Qed.

(** C1 (the code departs from it): under xarray's default, which
    drops the attributes in a reduction, a single array with an ensemble
    attribute, reduced over longitude or over latitude and longitude,
    comes back with an empty attribute map, since line 141 assigns to the
    mean its own attributes; the same array inside a list comes back with
    its attribute map. *)
Theorem single_array_loses_attrs (v : V) :
  mean_flatten num false (One (sample_grid v)) (Some ["lon"]) "lat"
    = (Some ["lon"],
       Ok (One (mkDA (mean_values num ["lon"] v) ["time"; "lat"] ∅))) /\
  mean_flatten num false (One (sample_grid v)) (Some ["lat"; "lon"]) "lat"
    = (Some ["lon"],
       Ok (One (mkDA (mean_values num ["lon"]
                        (weighted_mean_values num "lat" v))
                     ["time"] ∅))) /\
  attrs (sample_grid v) <> ∅ /\
  mean_flatten num false (Many [sample_grid v]) (Some ["lon"]) "lat"
    = (Some ["lon"],
       Ok (Many [mkDA (mean_values num ["lon"] v) ["time"; "lat"]
                      (attrs (sample_grid v))])).
Proof.
  split; [|split; [|split]].
  - vm_compute. reflexivity.
  - vm_compute. reflexivity.
  - intros H. apply (f_equal (lookup "ensemble")) in H.
    vm_compute in H. discriminate.
  - vm_compute. reflexivity.
Qed.

(** *** The caller's list of axes *)

Lemma py_remove_first (x : string) (l l' : list string) :
  py_remove x l = Some l' ->
  exists l1 l2, l = l1 ++ x :: l2 /\ (x ∉ l1) /\ l' = l1 ++ l2.
Proof.
  revert l'. induction l as [|y l IH]; simpl; intros l' H; [discriminate|].
  destruct (String.eqb y x) eqn:E.
  - apply String.eqb_eq in E as ->. injection H as <-.
    exists [], l. split; [reflexivity|]. split; [|reflexivity].
    apply not_elem_of_nil.
  - destruct (py_remove x l) as [r|]; [|discriminate].
    injection H as <-. destruct (IH r eq_refl) as (l1 & l2 & -> & Hn & ->).
    exists (y :: l1), l2. split; [reflexivity|]. split; [|reflexivity].
    apply String.eqb_neq in E. apply not_elem_of_cons. split; congruence.
Qed.

Lemma py_remove_elem (x : string) (l : list string) :
  x ∈ l -> is_Some (py_remove x l).
Proof.
  induction l as [|y l IH]; intros H; [inversion H|]. simpl.
  destruct (String.eqb y x) eqn:E; [eauto|].
  apply String.eqb_neq in E. apply elem_of_cons in H as [H|H]; [congruence|].
  destruct (IH H) as [r ->]. simpl. eauto.
Qed.

Lemma py_remove_None (x : string) (l : list string) :
  occurrences x l = 0%nat -> py_remove x l = None.
Proof.
  unfold occurrences. induction l as [|y l IH]; simpl; [reflexivity|].
  destruct (String.eqb y x); simpl; [discriminate|].
  intros H. rewrite (IH H). reflexivity.
Qed.

Lemma py_remove_occurrences (x : string) (l l' : list string) :
  py_remove x l = Some l' -> occurrences x l = S (occurrences x l').
Proof.
  unfold occurrences. revert l'.
  induction l as [|y l IH]; simpl; intros l' H; [discriminate|].
  destruct (String.eqb y x) eqn:E.
  - injection H as <-. reflexivity.
  - destruct (py_remove x l) as [r|]; [|discriminate].
    injection H as <-. simpl. rewrite E. apply IH. reflexivity.
Qed.

(** C9, amended: when the list passed as [dims] contains the latitude
    name, [mean_flatten] leaves the caller's list without the first
    occurrence of that name; when the name occurred once, a second call
    with the same list does not request the latitude reduction and
    leaves the list as it is. *)
Theorem dims_mutated_in_place (keep : bool) (arrays : arrays_arg V)
    (dims : list string) (lat : string) :
  lat ∈ dims ->
  exists dims',
    fst (mean_flatten num keep arrays (Some dims) lat) = Some dims' /\
    (exists l1 l2, dims = l1 ++ lat :: l2 /\ (lat ∉ l1) /\ dims' = l1 ++ l2) /\
    (occurrences lat dims = 1%nat ->
     snd (split_dims dims' lat) = false /\
     fst (mean_flatten num keep arrays (Some dims') lat) = Some dims').
Proof.
  intros Hin. destruct (py_remove_elem lat dims Hin) as [dims' Hrm].
  exists dims'. split; [|split].
  - unfold mean_flatten, split_dims. rewrite Hrm. reflexivity.
  - by apply py_remove_first.
  - intros Hocc. apply py_remove_occurrences in Hrm as Hcount.
    assert (Hnone : py_remove lat dims' = None).
    { apply py_remove_None. lia. }
    unfold mean_flatten, split_dims. rewrite Hnone. split; reflexivity.
Qed.

End ReducerFacts.

Lemma dims_mutated_in_place_witness :
  "lat" ∈ ["lat"; "lon"] /\
  Reducer.occurrences "lat" ["lat"; "lon"] = 1%nat /\
  fst (Reducer.mean_flatten Reducer.unit_numerics false (Reducer.Many [])
         (Some ["lat"; "lon"]) "lat") = Some ["lon"] /\
  snd (Reducer.split_dims ["lon"] "lat") = false.
Proof.
  assert (Hin : "lat" ∈ ["lat"; "lon"]) by (left).
  assert (Hocc : Reducer.occurrences "lat" ["lat"; "lon"] = 1%nat)
    by reflexivity.
  split; [exact Hin|]. split; [exact Hocc|].
  destruct (dims_mutated_in_place Reducer.unit_numerics false
              (Reducer.Many []) ["lat"; "lon"] "lat" Hin)
    as (dims' & Hafter & _ & Honce).
  assert (Hd : dims' = ["lon"]).
  { simpl in Hafter. congruence. }
  subst dims'. split; [exact Hafter|]. exact (proj1 (Honce Hocc)).
Defined.

(** C9 as stated fails: a list that names latitude twice still names it
    after the call, and a second call with that list requests the
    latitude reduction again. *)
Lemma dims_duplicate_counterexample :
  "lat" ∈ ["lat"; "lat"] /\
  fst (Reducer.mean_flatten Reducer.unit_numerics false (Reducer.Many [])
         (Some ["lat"; "lat"]) "lat") = Some ["lat"] /\
  snd (Reducer.split_dims ["lat"] "lat") = true.
Proof.
  split; [left|]. split; reflexivity.
Qed.

(** ** More on the Spatial Reducer *)

Section ReducerExtra.
Import Reducer.
Context {V : Type}.
Variable num : Numerics V.
Variable keep : bool.

Lemma py_remove_absent (x : string) (l : list string) :
  ~ In x l -> py_remove x l = None.
Proof.
  induction l as [|y l IH]; intros Hn; simpl; [reflexivity|].
  destruct (String.eqb y x) eqn:E.
  - apply String.eqb_eq in E. exfalso. apply Hn. by left.
  - rewrite IH; [reflexivity|]. intros H. apply Hn. by right.
Qed.

Lemma py_remove_same_elements (x : string) (l l' : list string) (d : string) :
  py_remove x l = Some l' -> (In d l <-> d = x \/ In d l').
Proof.
  intros H. apply py_remove_first in H as (l1 & l2 & -> & _ & ->).
  rewrite !in_app_iff. simpl. intuition.
Qed.

Lemma xr_mean_ok ds (arr out : DataArray V) :
  xr_mean num keep ds arr = Ok out ->
  values out = mean_values num ds (values arr) /\
  dims out = List.filter (fun d => negb (bool_decide (d ∈ ds))) (dims arr) /\
  forall d, In d ds -> In d (dims arr).
Proof.
  unfold xr_mean. destruct (List.find _ ds) eqn:E; [discriminate|].
  destruct (bool_decide (NoDup ds)); [|discriminate].
  intros [= <-]. simpl. split; [reflexivity|]. split; [reflexivity|].
  intros d Hd. pose proof (find_none _ _ E d Hd) as Hf. simpl in Hf.
  apply negb_false_iff, bool_decide_eq_true in Hf.
  by apply list_elem_of_In.
Qed.

(** When the list passed as [dims] does not name latitude, the call
    leaves the list as it is and takes the plain mean over its axes: no
    weighted mean is involved. *)
Theorem dims_without_lat_unchanged (arr : DataArray V) (dims : list string)
    (lat : string) :
  ~ In lat dims ->
  (mean_flatten num keep (One arr) (Some dims) lat).1 = Some dims /\
  forall out,
    (mean_flatten num keep (One arr) (Some dims) lat).2 = Ok (One out) ->
    values out = mean_values num dims (values arr).
Proof.
  intros Hn. unfold mean_flatten, split_dims.
  rewrite (py_remove_absent _ _ Hn). simpl. split; [reflexivity|].
  intros out H. unfold mean_flatten_one in H.
  destruct (Ok arr ≫= _) as [o|e] eqn:E; [|discriminate].
  injection H as ->. simpl in E.
  apply bind_result_ok in E as (a & Ha & E). injection E as <-.
  apply xr_mean_ok in Ha as (Hv & _). exact Hv.
Qed.

Lemma filter_twice {A : Type} (f g : A -> bool) (l : list A) :
  List.filter f (List.filter g l) = List.filter (fun x => g x && f x) l.
Proof.
  induction l as [|x l IH]; [reflexivity|]. simpl.
  destruct (g x); simpl; [destruct (f x)|]; by rewrite IH.
Qed.

Lemma latitude_step_ok (include_lat : bool) lat (arr arr_ : DataArray V) :
  (if include_lat
   then tmp ← _latitude_mean num keep arr lat;
        Ok (assign_attrs tmp (attrs arr))
   else Ok arr) = Ok arr_ ->
  if include_lat
  then In lat (dims arr) /\
       values arr_ = weighted_mean_values num lat (values arr) /\
       dims arr_ = List.filter (fun d => negb (String.eqb d lat)) (dims arr)
  else arr_ = arr.
Proof.
  destruct include_lat.
  - intros H. apply bind_result_ok in H as (tmp & Htmp & H).
    injection H as <-. unfold _latitude_mean in Htmp.
    destruct (bool_decide (lat ∈ dims arr)) eqn:E;
      [|destruct (attrs arr !! lat); discriminate].
    injection Htmp as <-. simpl. apply bool_decide_eq_true in E.
    split; [by apply list_elem_of_In | auto].
  - by intros [= <-].
Qed.

(** Whenever the call returns for a single array, the result has the
    axes of the array that were not asked for, in their order, and every
    axis asked for (the list [dims], or longitude and time by default)
    was an axis of the array. *)
Theorem reduced_axes (arr out : DataArray V) (ds : option (list string))
    (lat : string) :
  (mean_flatten num keep (One arr) ds lat).2 = Ok (One out) ->
  dims out =
    List.filter (fun d => negb (bool_decide (d ∈ requested ds))) (dims arr)
  /\ forall d, In d (requested ds) -> In d (dims arr).
Proof.
  unfold mean_flatten. fold (requested ds). unfold split_dims.
  destruct (py_remove lat (requested ds)) as [dims1|] eqn:Hrm;
    simpl; intros H;
    (destruct (mean_flatten_one _ _ _ _ _ _) as [o|e] eqn:E; [|discriminate]);
    injection H as ->; unfold mean_flatten_one in E;
    apply bind_result_ok in E as (arr_ & Harr_ & E);
    apply bind_result_ok in E as (a & Ha & E); injection E as <-; simpl;
    apply xr_mean_ok in Ha as (_ & Hd & Hin).
  - apply (latitude_step_ok true) in Harr_ as (Hlat & _ & Hdims).
    rewrite Hd, Hdims, filter_twice. split.
    + apply filter_ext. intros d.
      destruct (String.eqb d lat) eqn:Ed; simpl.
      * apply String.eqb_eq in Ed as ->. symmetry.
        apply negb_false_iff, bool_decide_eq_true, list_elem_of_In.
        apply (py_remove_same_elements _ _ _ lat Hrm). by left.
      * apply String.eqb_neq in Ed. f_equal. apply bool_decide_ext.
        rewrite !list_elem_of_In.
        rewrite (py_remove_same_elements _ _ _ d Hrm). tauto.
    + intros d Hdreq.
      apply (py_remove_same_elements _ _ _ d Hrm) in Hdreq as [->|Hd1];
        [exact Hlat|].
      specialize (Hin d Hd1). rewrite Hdims in Hin.
      by apply filter_In in Hin as [Hin _].
  - apply (latitude_step_ok false lat) in Harr_. subst arr_.
    split; [exact Hd | exact Hin].
Qed.

(** *** A list of arrays *)

Lemma item_as_one ds (include_lat : bool) lat (arr b : DataArray V) :
  mean_flatten_item num keep ds include_lat lat arr = Ok b ->
  exists o, mean_flatten_one num keep ds include_lat lat arr = Ok o /\
            values b = values o /\ dims b = dims o.
Proof.
  unfold mean_flatten_item, mean_flatten_one. intros H.
  apply bind_result_ok in H as (arr_ & Harr_ & H).
  apply bind_result_ok in H as (a & Ha & H). injection H as <-.
  rewrite Harr_. simpl. rewrite Ha. simpl. eauto.
Qed.

(** Whenever the call returns for a list, it returns one array for each
    array of the list, with the values and the axes that the call on
    that array alone returns. *)
Theorem list_as_single (arrs outs : list (DataArray V))
    (ds : option (list string)) (lat : string) :
  (mean_flatten num keep (Many arrs) ds lat).2 = Ok (Many outs) ->
  Forall2 (fun a b =>
             exists o,
               (mean_flatten num keep (One a) ds lat).2 = Ok (One o) /\
               values b = values o /\ dims b = dims o) arrs outs.
Proof.
  unfold mean_flatten. destruct (split_dims _ lat) as [dims1 include_lat].
  simpl. intros H.
  destruct (for_each _ arrs) as [bs|e] eqn:E; [|discriminate].
  injection H as <-.
  eapply for_each_Forall2; [|exact E].
  intros a b Hb. apply item_as_one in Hb as (o & Ho & Hv & Hd).
  exists o. rewrite Ho. auto.
Qed.

End ReducerExtra.

Lemma dims_without_lat_unchanged_witness :
  (Reducer.mean_flatten Reducer.unit_numerics false
     (Reducer.One (Reducer.sample_grid tt)) (Some ["lon"; "time"]) "lat").1
    = Some ["lon"; "time"].
Proof.
  apply (dims_without_lat_unchanged Reducer.unit_numerics false
           (Reducer.sample_grid tt) ["lon"; "time"] "lat").
  intros [H|[H|[]]]; discriminate.
Defined.

Lemma sample_grid_reduced :
  (Reducer.mean_flatten Reducer.unit_numerics false
     (Reducer.One (Reducer.sample_grid tt)) (Some ["lat"; "lon"]) "lat").2
    = Ok (Reducer.One (Reducer.mkDA tt ["time"] ∅)).
Proof. vm_compute. reflexivity. Defined.

Lemma reduced_axes_witness :
  Reducer.dims (Reducer.mkDA tt ["time"] ∅) =
    List.filter
      (fun d => negb (bool_decide
                        (d ∈ Reducer.requested (Some ["lat"; "lon"]))))
      (Reducer.dims (Reducer.sample_grid tt)).
Proof.
  exact (proj1 (reduced_axes Reducer.unit_numerics false _ _ _ _
                  sample_grid_reduced)).
Defined.

Lemma sample_grids_reduced :
  (Reducer.mean_flatten Reducer.unit_numerics false
     (Reducer.Many [Reducer.sample_grid tt; Reducer.sample_grid tt])
     None "lat").2
    = Ok (Reducer.Many
            [Reducer.mkDA tt ["lat"] {[ "ensemble" := "ens1" ]};
             Reducer.mkDA tt ["lat"] {[ "ensemble" := "ens1" ]}]).
Proof. vm_compute. reflexivity. Defined.

Lemma list_as_single_witness :
  Forall2 (fun a b =>
             exists o,
               (Reducer.mean_flatten Reducer.unit_numerics false
                  (Reducer.One a) None "lat").2 = Ok (Reducer.One o) /\
               Reducer.values b = Reducer.values o /\
               Reducer.dims b = Reducer.dims o)
          [Reducer.sample_grid tt; Reducer.sample_grid tt]
          [Reducer.mkDA tt ["lat"] {[ "ensemble" := "ens1" ]};
           Reducer.mkDA tt ["lat"] {[ "ensemble" := "ens1" ]}].
Proof.
  exact (list_as_single Reducer.unit_numerics false _ _ _ _
           sample_grids_reduced).
Defined.

(** ** The Seasonality Filter *)

Section FilterFacts.
Import Filter.

Lemma bind_run {A B : Type} (m : M A) (f : A -> M B) (h : heap) :
  (m ≫= f) h =
  match m h with
  | (h1, l1, Ok a) => let '(h2, l2, r) := f a h1 in (h2, l1 ++ l2, r)
  | (h1, l1, Raise e) => (h1, l1, Raise e)
  end.
Proof. reflexivity. Qed.

Lemma run_bind_ok {A B : Type} (m : M A) (f : A -> M B) h h' log b :
  (m ≫= f) h = (h', log, Ok b) ->
  exists h1 l1 a l2,
    m h = (h1, l1, Ok a) /\ f a h1 = (h', l2, Ok b) /\ log = l1 ++ l2.
Proof.
  rewrite bind_run. destruct (m h) as [[h1 l1] [a|e]]; [|discriminate].
  destruct (f a h1) as [[h2 l2] r] eqn:E. intros [= -> <- ->].
  exists h1, l1, a, l2. auto.
Qed.

Lemma run_bind_raise {A B : Type} (m : M A) (f : A -> M B) h h' log e :
  (m ≫= f) h = (h', log, Raise e) ->
  m h = (h', log, Raise e) \/
  exists h1 l1 a l2,
    m h = (h1, l1, Ok a) /\ f a h1 = (h', l2, Raise e) /\ log = l1 ++ l2.
Proof.
  rewrite bind_run. destruct (m h) as [[h1 l1] [a|e']].
  - destruct (f a h1) as [[h2 l2] r] eqn:E. intros [= -> <- ->].
    right. exists h1, l1, a, l2. auto.
  - intros [= -> -> ->]. auto.
Qed.

Lemma lift_inv {A : Type} (r : result A) h h' log r' :
  lift r h = (h', log, r') -> h' = h /\ log = [] /\ r' = r.
Proof. unfold lift. intros [= <- <- <-]. auto. Qed.

(** *** Lengths of the transforms *)

Lemma rfft_length (x : list R) (yf : list C) :
  rfft x = Ok yf -> length yf = (length x / 2 + 1)%nat /\ length x <> 0%nat.
Proof.
  unfold rfft. destruct (length x =? 0)%nat eqn:E; [discriminate|].
  intros [= <-]. rewrite length_map, length_seq.
  split; [reflexivity|]. by apply Nat.eqb_neq.
Qed.

Lemma irfft_length (yf : list C) (y : list R) :
  irfft yf = Ok y -> length y = (2 * (length yf - 1))%nat.
Proof.
  unfold irfft. destruct (2 * (length yf - 1) =? 0)%nat; [discriminate|].
  intros [= <-]. by rewrite length_map, length_seq.
Qed.

Lemma irfft_total (yf : list C) :
  (2 <= length yf)%nat -> exists y, irfft yf = Ok y.
Proof.
  intros H. unfold irfft.
  destruct (2 * (length yf - 1) =? 0)%nat eqn:E; [|eauto].
  apply Nat.eqb_eq in E. lia.
Qed.

Lemma assign_at_length (yf : list C) (idx : list nat) (fill : list C) :
  length (assign_at yf idx fill) = length yf.
Proof.
  revert yf fill. induction idx as [|i idx IH]; intros yf [|v fill]; simpl;
    try reflexivity.
  rewrite IH. apply length_insert.
Qed.

Lemma fill_band_length (yf yf' : list C) (idx : list nat) :
  fill_band yf idx = Ok yf' -> length yf' = length yf.
Proof.
  unfold fill_band. intros H.
  apply bind_result_ok in H as (below & _ & H).
  apply bind_result_ok in H as (above & _ & H).
  destruct (forallb _ idx); [|discriminate].
  injection H as <-. apply assign_at_length.
Qed.

Lemma clean_spectrum_inv (yf yf' : list C) (idx : list nat) h h' log :
  clean_spectrum yf idx h = (h', log, Ok yf') ->
  h' = h /\ length yf' = length yf /\
  (py_any idx = false -> yf' = yf /\ log = [Print warning_line; Print hint_line]) /\
  (py_any idx = true -> fill_band yf idx = Ok yf' /\ log = []).
Proof.
  unfold clean_spectrum. destruct (py_any idx).
  - intros H. apply lift_inv in H as (-> & -> & H). symmetry in H.
    split; [reflexivity|]. split; [by apply (fill_band_length _ _ idx)|].
    split; [discriminate | auto].
  - intros [= <- <- <-]. split; [reflexivity|]. split; [reflexivity|].
    split; [auto | discriminate].
Qed.

(** *** One run of the filter, step by step *)

Lemma fourier_ok_inv h arr freq radius plot h' log out :
  _remove_seasonality_fourier arr freq radius plot h = (h', log, Ok out) ->
  exists sp np yf xf yf_clean y lg,
    sample_spacing (time arr) = Ok (sp, np) /\
    rfft (h !!! data arr) = Ok yf /\
    rfftfreq (length (labels (time arr))) sp np = Ok xf /\
    clean_spectrum yf (band_indices xf freq radius) h = (h, lg, Ok yf_clean) /\
    irfft yf_clean = Ok y /\
    h' = <[data arr := y ++ drop (length y) (h !!! data arr)]> h /\
    log = lg ++ (if plot then [ShowPlot] else []) /\
    out = mkDA (data arr) (time arr) (attrs arr).
Proof.
  unfold _remove_seasonality_fourier. intros H.
  apply run_bind_ok in H as (h1 & l1 & [sp np] & l2 & Hsp & H & ->).
  apply lift_inv in Hsp as (-> & -> & Hsp).
  apply run_bind_ok in H as (h2 & l3 & values & l4 & Hrd & H & ->).
  unfold read in Hrd. injection Hrd as <- <- <-.
  apply run_bind_ok in H as (h3 & l5 & yf & l6 & Hyf & H & ->).
  apply lift_inv in Hyf as (-> & -> & Hyf).
  apply run_bind_ok in H as (h4 & l7 & xf & l8 & Hxf & H & ->).
  apply lift_inv in Hxf as (-> & -> & Hxf).
  apply run_bind_ok in H as (h5 & lg & yf_clean & l9 & Hcl & H & ->).
  pose proof (clean_spectrum_inv _ _ _ _ _ _ Hcl) as (-> & _).
  apply run_bind_ok in H as (h6 & l10 & y & l11 & Hy & H & ->).
  apply lift_inv in Hy as (-> & -> & Hy).
  apply run_bind_ok in H as (h7 & lp & u & l12 & Hp & H & ->).
  assert (Hplot : h7 = h /\ lp = (if plot then [ShowPlot] else [])).
  { destruct plot; injection Hp as <- <- _; auto. }
  destruct Hplot as [-> ->].
  apply run_bind_ok in H as (h8 & lo & u' & l13 & Ho & H & ->).
  injection H as <- <- <-.
  unfold overwrite_prefix in Ho.
  apply run_bind_ok in Ho as (h9 & l14 & old & l15 & Hrd & Ho & ->).
  unfold read in Hrd. injection Hrd as <- <- <-.
  destruct (length y <=? length (h !!! data arr))%nat; [|discriminate].
  unfold write in Ho. injection Ho as <- <- _.
  exists sp, np, yf, xf, yf_clean, y, lg.
  repeat split; try done.
  simpl. by rewrite !app_nil_r.
Qed.

Lemma inverse_length (values : list R) (yf yf_clean : list C) (y : list R) :
  rfft values = Ok yf -> length yf_clean = length yf -> irfft yf_clean = Ok y ->
  length y = (2 * (length values / 2))%nat.
Proof.
  intros Hyf Hlen Hy. apply rfft_length in Hyf as [Hyf _].
  apply irfft_length in Hy. lia.
Qed.

Lemma fourier_run h arr freq radius plot sp np yf xf yf_clean lg y :
  sample_spacing (time arr) = Ok (sp, np) ->
  rfft (h !!! data arr) = Ok yf ->
  rfftfreq (length (labels (time arr))) sp np = Ok xf ->
  clean_spectrum yf (band_indices xf freq radius) h = (h, lg, Ok yf_clean) ->
  irfft yf_clean = Ok y ->
  _remove_seasonality_fourier arr freq radius plot h =
    (<[data arr := y ++ drop (length y) (h !!! data arr)]> h,
     lg ++ (if plot then [ShowPlot] else []),
     Ok (mkDA (data arr) (time arr) (attrs arr))).
Proof.
  intros Hsp Hyf Hxf Hcl Hy.
  assert (Hlen : (length y <= length (h !!! data arr))%nat).
  { pose proof (clean_spectrum_inv _ _ _ _ _ _ Hcl) as (_ & Hl & _).
    rewrite (inverse_length _ _ _ _ Hyf Hl Hy).
    apply (Nat.Div0.mul_div_le _ 2). }
  apply Nat.leb_le in Hlen.
  unfold _remove_seasonality_fourier.
  rewrite bind_run. unfold lift at 1. rewrite Hsp.
  rewrite bind_run. unfold read at 1.
  rewrite bind_run. unfold lift at 1. rewrite Hyf.
  rewrite bind_run. unfold lift at 1. rewrite Hxf.
  rewrite bind_run. rewrite Hcl.
  rewrite bind_run. unfold lift at 1. rewrite Hy.
  rewrite bind_run.
  unfold overwrite_prefix.
  destruct plot; simpl; rewrite !bind_run; unfold read; rewrite Hlen;
    simpl; rewrite ?app_nil_r; reflexivity.
Qed.

Lemma fourier_run_unfiltered h arr freq radius plot sp np xf :
  sample_spacing (time arr) = Ok (sp, np) ->
  rfftfreq (length (labels (time arr))) sp np = Ok xf ->
  py_any (band_indices xf freq radius) = false ->
  (2 <= length (h !!! data arr))%nat ->
  exists yf y,
    rfft (h !!! data arr) = Ok yf /\ irfft yf = Ok y /\
    _remove_seasonality_fourier arr freq radius plot h =
      (<[data arr := y ++ drop (length y) (h !!! data arr)]> h,
       [Print warning_line; Print hint_line] ++
         (if plot then [ShowPlot] else []),
       Ok (mkDA (data arr) (time arr) (attrs arr))).
Proof.
  intros Hsp Hxf Hany Hlen.
  destruct (rfft (h !!! data arr)) as [yf|e] eqn:Hyf.
  2:{ unfold rfft in Hyf.
      destruct (length (h !!! data arr) =? 0)%nat eqn:E; [|discriminate].
      apply Nat.eqb_eq in E. lia. }
  pose proof (rfft_length _ _ Hyf) as [Hl _].
  destruct (irfft_total yf) as [y Hy].
  { rewrite Hl. pose proof (Nat.div_le_lower_bound
      (length (h !!! data arr)) 2 1). lia. }
  exists yf, y. split; [reflexivity|]. split; [exact Hy|].
  apply (fourier_run h arr freq radius plot sp np yf xf yf); try assumption.
  unfold clean_spectrum. rewrite Hany. reflexivity.
Qed.

(** *** What the inverse transform overwrites *)

(** A run that returns has written the inverse transform of the cleaned
    spectrum of the series over its first [2 * (n / 2)] values: all of
    them for an even [n], all but the last for an odd [n]. *)
Lemma fourier_overwrites_prefix (h h' : heap) (arr out : DataArray)
    (freq radius : Q) (plot : bool) (log : list event) :
  _remove_seasonality_fourier arr freq radius plot h = (h', log, Ok out) ->
  let n := length (h !!! data arr) in
  exists (sp : Q) (np : bool) (xf : list (option Q)) (yf yf_clean : list C)
         (lg : list event) (y : list R),
    sample_spacing (time arr) = Ok (sp, np) /\
    rfftfreq (length (labels (time arr))) sp np = Ok xf /\
    rfft (h !!! data arr) = Ok yf /\
    clean_spectrum yf (band_indices xf freq radius) h = (h, lg, Ok yf_clean) /\
    irfft yf_clean = Ok y /\
    length y = (2 * (n / 2))%nat /\
    h' = <[data arr := y ++ drop (length y) (h !!! data arr)]> h /\
    length (y ++ drop (length y) (h !!! data arr)) = n /\
    (Nat.Even n -> y ++ drop (length y) (h !!! data arr) = y) /\
    (Nat.Odd n -> (y ++ drop (length y) (h !!! data arr)) !! (n - 1)%nat
                  = (h !!! data arr) !! (n - 1)%nat) /\
    data out = data arr /\ time out = time arr /\ attrs out = attrs arr.
Proof.
  intros H n.
  apply fourier_ok_inv in H
    as (sp & np & yf & xf & yf_clean & y & lg
        & Hsp & Hyf & Hxf & Hcl & Hy & -> & -> & ->).
  pose proof (clean_spectrum_inv _ _ _ _ _ _ Hcl) as (_ & Hl & _).
  pose proof (inverse_length _ _ _ _ Hyf Hl Hy) as Hlen. fold n in Hlen.
  assert (Hle : (length y <= n)%nat).
  { rewrite Hlen. apply (Nat.Div0.mul_div_le _ 2). }
  exists sp, np, xf, yf, yf_clean, lg, y.
  split; [exact Hsp|]. split; [exact Hxf|]. split; [exact Hyf|].
  split; [exact Hcl|].
  split; [exact Hy|]. split; [exact Hlen|]. split; [reflexivity|].
  split; [|split; [|split]].
  - rewrite length_app, length_drop. fold n. lia.
  - intros [k Hk].
    assert (length y = n) as Hn.
    { rewrite Hlen, Hk. rewrite (Nat.mul_comm 2 k), Nat.div_mul; lia. }
    rewrite drop_ge by (fold n; lia). apply app_nil_r.
  - intros [k Hk].
    assert (length y = (n - 1)%nat) as Hn.
    { rewrite Hlen, Hk.
      replace (2 * k + 1)%nat with (1 + k * 2)%nat by lia.
      rewrite Nat.div_add by lia. simpl. lia. }
    rewrite lookup_app_r by lia. rewrite lookup_drop. f_equal. lia.
  - auto.
Qed.

(** [remove_seasonality] on a single array: the filter runs on a copy
    of the array in a fresh buffer. *)
Lemma remove_one_run (arr : DataArray) (freq radius : Q) (plot : bool)
    (h : heap) :
  remove_seasonality (One arr) freq radius plot h =
  let l := fresh (dom h) in
  match _remove_seasonality_fourier (mkDA l (time arr) (attrs arr))
          freq radius plot (<[l := h !!! data arr]> h) with
  | (h2, lg, Ok r) => (h2, lg, Ok (One r))
  | (h2, lg, Raise e) => (h2, lg, Raise e)
  end.
Proof.
  simpl. rewrite bind_run. unfold copy. rewrite bind_run. simpl.
  destruct (_remove_seasonality_fourier _ _ _ _ _) as [[h2 lg] [r|e]];
    simpl; rewrite ?app_nil_r; reflexivity.
Qed.

Lemma even_heap_buffer : even_heap !!! data even_series = [1; 2; 3; 4]%R.
Proof.
  unfold even_heap, even_series. simpl. apply lookup_total_singleton_eq.
Qed.

Lemma odd_heap_buffer : odd_heap !!! data odd_series = [0; 0; 5]%R.
Proof. unfold odd_heap, odd_series. simpl. apply lookup_total_singleton_eq. Qed.

Lemma even_series_bins :
  sample_spacing even_axis = Ok ((1 - 0)%Q, true) /\
  rfftfreq (length (labels even_axis)) (1 - 0) true = Ok even_bins.
Proof. split; reflexivity. Qed.

(** A series on [even_axis] whose band holds no index but 0 goes
    through the warning branch. *)
Lemma even_series_run (freq radius : Q) :
  py_any (band_indices even_bins freq radius) = false ->
  exists yf y,
    rfft [1; 2; 3; 4]%R = Ok yf /\ irfft yf = Ok y /\ length y = 4%nat /\
    forall h l a, h !!! l = [1; 2; 3; 4]%R ->
      _remove_seasonality_fourier (mkDA l even_axis a) freq radius false h =
        (<[l := y]> h, [Print warning_line; Print hint_line],
         Ok (mkDA l even_axis a)).
Proof.
  intros Hany. destruct even_series_bins as [Hsp Hxf].
  destruct (fourier_run_unfiltered even_heap even_series freq radius false
              _ _ _ Hsp Hxf Hany)
    as (yf & y & Hyf & Hy & _).
  { rewrite even_heap_buffer. simpl. lia. }
  rewrite even_heap_buffer in Hyf.
  assert (Hlen : length y = 4%nat).
  { rewrite (inverse_length _ _ _ _ Hyf eq_refl Hy). reflexivity. }
  exists yf, y. split; [exact Hyf|]. split; [exact Hy|].
  split; [exact Hlen|]. intros h l a Hbuf.
  rewrite (fourier_run h (mkDA l even_axis a) freq radius false
             _ _ yf even_bins yf [Print warning_line; Print hint_line] y
             Hsp); simpl.
  - rewrite Hbuf, Hlen. simpl. rewrite !app_nil_r. reflexivity.
  - rewrite Hbuf. exact Hyf.
  - exact Hxf.
  - unfold clean_spectrum. rewrite Hany. reflexivity.
  - exact Hy.
Qed.

Lemma odd_series_run :
  exists yf y,
    rfft [0; 0; 5]%R = Ok yf /\ irfft yf = Ok y /\ length y = 2%nat /\
    forall h l a, h !!! l = [0; 0; 5]%R ->
      _remove_seasonality_fourier (mkDA l odd_axis a) 1 (1 # 100) false h =
        (<[l := y ++ [5%R]]> h, [Print warning_line; Print hint_line],
         Ok (mkDA l odd_axis a)).
Proof.
  assert (Hsp : sample_spacing odd_axis = Ok ((1 - 0)%Q, true))
    by reflexivity.
  assert (Hxf : rfftfreq (length (labels odd_axis)) (1 - 0) true
                = Ok odd_bins) by reflexivity.
  assert (Hany : py_any (band_indices odd_bins 1 (1 # 100)) = false)
    by (vm_compute; reflexivity).
  destruct (fourier_run_unfiltered odd_heap odd_series 1 (1 # 100) false
              _ _ _ Hsp Hxf Hany)
    as (yf & y & Hyf & Hy & _).
  { rewrite odd_heap_buffer. simpl. lia. }
  rewrite odd_heap_buffer in Hyf.
  assert (Hlen : length y = 2%nat).
  { rewrite (inverse_length _ _ _ _ Hyf eq_refl Hy). reflexivity. }
  exists yf, y. split; [exact Hyf|]. split; [exact Hy|].
  split; [exact Hlen|]. intros h l a Hbuf.
  rewrite (fourier_run h (mkDA l odd_axis a) 1 (1 # 100) false
             _ _ yf odd_bins yf [Print warning_line; Print hint_line] y
             Hsp); simpl.
  - rewrite Hbuf, Hlen. simpl. reflexivity.
  - rewrite Hbuf. exact Hyf.
  - exact Hxf.
  - unfold clean_spectrum. rewrite Hany. reflexivity.
  - exact Hy.
Qed.

Lemma angle_0_r (n j : nat) : angle n j 0 = 0%R.
Proof. unfold angle. rewrite Nat.mul_0_r. simpl. unfold Rdiv. ring. Qed.

Lemma angle_0_l (n k : nat) : angle n 0 k = 0%R.
Proof. unfold angle. simpl. unfold Rdiv. ring. Qed.

Lemma angle_half : angle 2 1 1 = PI.
Proof. unfold angle. simpl. field. Qed.

Lemma angle_two_thirds : angle 3 2 1 = (PI / 3 + PI)%R.
Proof. unfold angle. simpl. field. Qed.

Lemma cos_two_thirds : cos (angle 3 2 1) = (- (1 / 2))%R.
Proof. rewrite angle_two_thirds, neg_cos, cos_PI3. reflexivity. Qed.

(** Two values come back from the two transforms as they were. *)
Lemma pair_inverse (a b : R) (yf : list C) (y : list R) :
  rfft [a; b] = Ok yf -> irfft yf = Ok y -> y = [a; b].
Proof.
  intros Hyf Hy.
  unfold rfft in Hyf. cbn -[angle cos sin dft_sum] in Hyf.
  injection Hyf as <-.
  unfold irfft in Hy. cbn -[angle cos sin dft_sum INR] in Hy.
  injection Hy as <-.
  unfold inverse_term. cbn -[angle cos sin INR].
  rewrite !angle_0_r, !angle_0_l, angle_half, cos_0, sin_0, cos_PI, sin_PI.
  simpl INR. f_equal; [field | f_equal; field].
Qed.

(** Three values do not: the spectrum of [0; 0; 5] has two bins, and
    its inverse transform two values, 5/4 and 15/4. *)
Lemma odd_inverse_values (yf : list C) (y : list R) :
  rfft [0; 0; 5]%R = Ok yf -> irfft yf = Ok y -> y = [5 / 4; 15 / 4]%R.
Proof.
  intros Hyf Hy.
  unfold rfft in Hyf. cbn -[angle cos sin dft_sum] in Hyf.
  injection Hyf as <-.
  unfold irfft in Hy. cbn -[angle cos sin dft_sum INR] in Hy.
  injection Hy as <-.
  unfold inverse_term. cbn -[angle cos sin INR].
  rewrite !angle_0_r, !angle_0_l, angle_half, cos_0, sin_0, cos_PI, sin_PI,
    cos_two_thirds.
  generalize (cos (angle 3 1 1)) (sin (angle 3 1 1)) (sin (angle 3 2 1)).
  intros c1 s1 s2. simpl INR. f_equal; [field | f_equal; field].
Qed.

(** C3 (the code departs from it): the series [0; 0; 5] on the yearly
    axis [0; 1; 2], filtered at frequency 1 with radius 1/100.  No bin
    is in the band, so the spectrum of the series is passed on as it is
    and the two lines that say that nothing was removed are printed.
    Its inverse transform, taken with the default length (line 276), is
    a series of two values, [5/4; 15/4], where the input has three; line
    282 writes them over the first two values and the third stays, so
    the series becomes [5/4; 15/4; 5]: neither of the input's length nor
    the input's values, although nothing was filtered.  This is so for
    the array of a list, overwritten where it is, and for a single
    array, whose copy is returned.  The time axis and the attributes
    are unchanged. *)
Theorem odd_series_resampled :
  exists yf : list C,
    rfft (odd_heap !!! data odd_series) = Ok yf /\
    sample_spacing (time odd_series) = Ok ((1 - 0)%Q, true) /\
    rfftfreq (length (labels (time odd_series))) (1 - 0)%Q true
      = Ok odd_bins /\
    band_indices odd_bins 1 (1 # 100) = [] /\
    clean_spectrum yf (band_indices odd_bins 1 (1 # 100)) odd_heap
      = (odd_heap, [Print warning_line; Print hint_line], Ok yf) /\
    irfft yf = Ok [5 / 4; 15 / 4]%R /\
    length (odd_heap !!! data odd_series) = 3%nat /\
    remove_seasonality (Many [odd_series]) 1 (1 # 100) false odd_heap
      = (<[data odd_series := [5 / 4; 15 / 4; 5]%R]> odd_heap,
         [Print warning_line; Print hint_line],
         Ok (Many [odd_series])) /\
    let l := fresh (dom odd_heap) in
    remove_seasonality (One odd_series) 1 (1 # 100) false odd_heap
      = (<[l := [5 / 4; 15 / 4; 5]%R]> (<[l := [0; 0; 5]%R]> odd_heap),
         [Print warning_line; Print hint_line],
         Ok (One (mkDA l (time odd_series) (attrs odd_series)))).
Proof.
  destruct odd_series_run as (yf & y & Hyf & Hy & _ & Hrun).
  pose proof (odd_inverse_values yf y Hyf Hy) as ->.
  exists yf. rewrite odd_heap_buffer.
  split; [exact Hyf|]. split; [reflexivity|]. split; [reflexivity|].
  assert (Hidx : band_indices odd_bins 1 (1 # 100) = [])
    by (vm_compute; reflexivity).
  split; [exact Hidx|]. split; [rewrite Hidx; reflexivity|].
  split; [exact Hy|]. split; [reflexivity|]. split.
  - specialize (Hrun odd_heap 0%nat {[ "ensemble" := "ens1" ]}
                  odd_heap_buffer).
    simpl. rewrite bind_run. simpl. rewrite bind_run.
    unfold odd_series. rewrite Hrun. reflexivity.
  - cbv zeta. rewrite remove_one_run. cbv zeta. rewrite odd_heap_buffer.
    rewrite Hrun by apply lookup_total_insert_eq. reflexivity.
Qed.

(** *** The caller's buffers *)

Lemma only_writes_bind {A B : Type} l (m : M A) (f : A -> M B) :
  only_writes l m -> (forall a, only_writes l (f a)) ->
  only_writes l (m ≫= f).
Proof.
  intros Hm Hf h h' log r H l' Hne. rewrite bind_run in H.
  destruct (m h) as [[h1 l1] [a|e]] eqn:E.
  - destruct (f a h1) as [[h2 l2] r2] eqn:E2. injection H as <- _ _.
    rewrite (Hf a _ _ _ _ E2 l' Hne). exact (Hm _ _ _ _ E l' Hne).
  - injection H as <- _ _. exact (Hm _ _ _ _ E l' Hne).
Qed.

Lemma only_writes_pure {A : Type} l (m : M A) :
  (forall h, (m h).1.1 = h) -> only_writes l m.
Proof.
  intros Hm h h' log r H l' _. specialize (Hm h). rewrite H in Hm.
  simpl in Hm. by subst.
Qed.

Lemma only_writes_write l d : only_writes l (write l d).
Proof.
  intros h h' log r H l' Hne. unfold write in H. injection H as <- _ _.
  by rewrite lookup_insert_ne.
Qed.

Lemma fourier_only_writes arr freq radius plot :
  only_writes (data arr) (_remove_seasonality_fourier arr freq radius plot).
Proof.
  unfold _remove_seasonality_fourier.
  apply only_writes_bind; [by apply only_writes_pure|]. intros [sp np].
  apply only_writes_bind; [by apply only_writes_pure|]. intros values.
  apply only_writes_bind; [by apply only_writes_pure|]. intros yf.
  apply only_writes_bind; [by apply only_writes_pure|]. intros xf.
  apply only_writes_bind.
  { apply only_writes_pure. intros h. unfold clean_spectrum.
    by destruct (py_any _). }
  intros yf_clean.
  apply only_writes_bind; [by apply only_writes_pure|]. intros y.
  apply only_writes_bind; [apply only_writes_pure; by destruct plot|].
  intros _. apply only_writes_bind; [|intros; by apply only_writes_pure].
  unfold overwrite_prefix.
  apply only_writes_bind; [by apply only_writes_pure|]. intros old.
  destruct (_ <=? _)%nat; [apply only_writes_write | by apply only_writes_pure].
Qed.

(** A single array is copied first: the caller's buffer is left as it
    was, whatever the outcome. *)
Lemma single_input_untouched h arr freq radius plot h' log r :
  is_Some (h !! data arr) ->
  remove_seasonality (One arr) freq radius plot h = (h', log, r) ->
  h' !! data arr = h !! data arr.
Proof.
  intros Hbound H. simpl in H. rewrite bind_run in H.
  unfold copy in H. set (l := fresh (dom h)) in *.
  assert (Hl : data arr <> l).
  { intros Heq. apply (is_fresh (dom h)). fold l. rewrite <- Heq.
    by apply elem_of_dom. }
  set (c := mkDA l (time arr) (attrs arr)) in *.
  set (h1 := <[l := h !!! data arr]> h) in *.
  assert (Hframe : forall h2 lg (r2 : result arrays_arg),
    (r0 ← _remove_seasonality_fourier c freq radius plot; ret (One r0)) h1
      = (h2, lg, r2) -> h2 !! data arr = h !! data arr).
  { intros h2 lg r2 H2.
    assert (Hw : only_writes l
      (r0 ← _remove_seasonality_fourier c freq radius plot; ret (One r0))).
    { apply only_writes_bind; [apply (fourier_only_writes c)|].
      intros; by apply only_writes_pure. }
    rewrite (Hw _ _ _ _ H2 (data arr) Hl). unfold h1.
    by rewrite lookup_insert_ne. }
  destruct ((r0 ← _remove_seasonality_fourier c freq radius plot;
             ret (One r0)) h1) as [[h2 l2] r2] eqn:E.
  injection H as <- _ _. by eapply Hframe.
Qed.

(** The inverse transform of the spectrum of [0; 0; 5] is not [0; 0]:
    its two values add up to 5. *)
Lemma odd_inverse_changes (yf : list C) (y : list R) :
  rfft [0; 0; 5]%R = Ok yf -> irfft yf = Ok y -> y <> [0; 0]%R.
Proof.
  intros Hyf Hy.
  unfold rfft in Hyf. cbn -[angle cos sin dft_sum] in Hyf.
  injection Hyf as <-.
  unfold irfft in Hy. cbn -[angle cos sin dft_sum INR] in Hy.
  injection Hy as <-.
  unfold inverse_term. cbn -[angle cos sin INR].
  rewrite !angle_0_r, !angle_0_l, angle_half, cos_0, sin_0, cos_PI, sin_PI.
  generalize (cos (angle 3 1 1)) (cos (angle 3 2 1))
             (sin (angle 3 1 1)) (sin (angle 3 2 1)).
  intros c1 c2 s1 s2 Heq. injection Heq as H0 H1. simpl in H0, H1. lra.
Qed.

(** C4 (the code departs from it): called on a list, the filter works on
    the caller's arrays themselves (line 212 passes [arr], where line
    208 passes a copy): the values of the array in the caller's list are
    overwritten. *)
Theorem list_input_overwritten :
  exists h' log out,
    remove_seasonality (Many [odd_series]) 1 (1 # 100) false odd_heap
      = (h', log, Ok (Many out)) /\
    odd_heap !!! data odd_series = [0; 0; 5]%R /\
    h' !!! data odd_series <> odd_heap !!! data odd_series.
Proof.
  destruct odd_series_run as (yf & y & Hyf & Hy & Hlen & Hrun).
  specialize (Hrun odd_heap 0%nat {[ "ensemble" := "ens1" ]} odd_heap_buffer).
  eexists _, _, [odd_series]. split; [|split; [exact odd_heap_buffer|]].
  - simpl. rewrite bind_run. simpl. rewrite bind_run.
    unfold odd_series. rewrite Hrun. simpl. reflexivity.
  - rewrite odd_heap_buffer. unfold odd_series at 1. simpl.
    rewrite lookup_total_insert_eq. intros Heq.
    apply (odd_inverse_changes yf y Hyf Hy).
    destruct y as [|y0 [|y1 [|y2 y]]]; try discriminate.
    injection Heq as -> ->. reflexivity.
Qed.

(** *** The band *)

Lemma map_seq_lookup {A : Type} (f : nat -> A) (i k j : nat) :
  (j < k)%nat -> map f (seq i k) !! j = Some (f (i + j)%nat).
Proof.
  revert i j. induction k as [|k IH]; intros i j Hj; [lia|].
  destruct j as [|j]; simpl.
  - by rewrite Nat.add_0_r.
  - rewrite IH by lia. f_equal. f_equal. lia.
Qed.

Lemma assign_at_seq_lookup (fill yf : list C) (i p : nat) :
  (i + length fill <= length yf)%nat ->
  assign_at yf (seq i (length fill)) fill !! p =
  if bool_decide (i <= p < i + length fill)%nat
  then fill !! (p - i)%nat else yf !! p.
Proof.
  revert yf i. induction fill as [|v fill IH]; intros yf i Hlen; simpl.
  - rewrite bool_decide_eq_false_2 by lia. reflexivity.
  - rewrite IH by (rewrite length_insert; simpl in Hlen; lia).
    simpl in Hlen.
    destruct (decide (p = i)) as [->|Hne].
    + rewrite bool_decide_eq_false_2 by lia.
      rewrite bool_decide_eq_true_2 by lia.
      rewrite Nat.sub_diag. simpl. apply list_lookup_insert_eq. lia.
    + rewrite list_lookup_insert_ne by congruence.
      destruct (decide (S i <= p < S i + length fill)%nat) as [Hin|Hout].
      * rewrite !bool_decide_eq_true_2 by lia.
        replace (p - i)%nat with (S (p - S i)) by lia. reflexivity.
      * rewrite !bool_decide_eq_false_2 by lia. reflexivity.
Qed.

Lemma linspace_length (lo hi : C) (k : nat) : length (linspace lo hi k) = k.
Proof. unfold linspace. by rewrite length_map, length_seq. Qed.

(** What lines 263-266 do for a band of [k] consecutive bins from bin
    [i] on, with a bin below and a bin above it: bin [i + j] receives the
    value [j / (k - 1)] of the way from the bin below to the bin above
    (the value of the bin below when [k = 1]); the other bins keep their
    values and nothing is printed. *)
Lemma interior_band_interpolated (yf : list C) (i k : nat) (below above : C)
    (h : heap) :
  (1 <= i)%nat -> (1 <= k)%nat ->
  yf !! (i - 1)%nat = Some below -> yf !! (i + k)%nat = Some above ->
  exists yf',
    clean_spectrum yf (seq i k) h = (h, [], Ok yf') /\
    length yf' = length yf /\
    (forall j, (j < k)%nat ->
       yf' !! (i + j)%nat =
       Some (Cadd below (Cscale (INR j / INR (k - 1))%R (Csub above below)))) /\
    (forall p, (p < i \/ i + k <= p)%nat -> yf' !! p = yf !! p).
Proof.
  intros Hi Hk Hbelow Habove.
  assert (Hlen : (i + k < length yf)%nat) by (eapply lookup_lt_Some; eauto).
  assert (Hany : py_any (seq i k) = true).
  { destruct k as [|k]; [lia|]. simpl.
    destruct i as [|i]; [lia|]. reflexivity. }
  assert (Hhd : hd 0%nat (seq i k) = i) by (destruct k; [lia | reflexivity]).
  assert (Hlast : List.last (seq i k) 0%nat = (i + k - 1)%nat).
  { replace k with (S (k - 1)) at 1 by lia. rewrite seq_S, last_last. lia. }
  assert (Hall : forallb (fun a => a <? length yf)%nat (seq i k) = true).
  { apply forallb_forall. intros a Ha. apply in_seq in Ha.
    apply Nat.ltb_lt. lia. }
  exists (assign_at yf (seq i k) (linspace below above k)).
  split; [|split; [apply assign_at_length|split]].
  - unfold clean_spectrum. rewrite Hany. unfold lift, fill_band.
    rewrite Hhd, Hlast. unfold np_index, py_index.
    assert (E1 : (Z.of_nat i - 1 <? 0)%Z = false) by (apply Z.ltb_ge; lia).
    assert (E2 : (Z.of_nat (i + k - 1) + 1 <? 0)%Z = false)
      by (apply Z.ltb_ge; lia).
    rewrite !E1, !E2.
    replace (Z.to_nat (Z.of_nat i - 1)) with (i - 1)%nat by lia.
    replace (Z.to_nat (Z.of_nat (i + k - 1) + 1)) with (i + k)%nat by lia.
    rewrite Hbelow. simpl. rewrite Habove. simpl.
    rewrite Hall, length_seq. reflexivity.
  - intros j Hj.
    rewrite <- (linspace_length below above k) at 1.
    rewrite assign_at_seq_lookup by (rewrite linspace_length; lia).
    rewrite linspace_length.
    rewrite bool_decide_eq_true_2 by lia.
    replace (i + j - i)%nat with j by lia.
    unfold linspace. by rewrite map_seq_lookup.
  - intros p Hp.
    rewrite <- (linspace_length below above k) at 1.
    rewrite assign_at_seq_lookup by (rewrite linspace_length; lia).
    rewrite linspace_length.
    rewrite bool_decide_eq_false_2 by lia. reflexivity.
Qed.

(** With no bin in the band the warning and the hint are printed and
    the spectrum is passed on as it is. *)
Lemma empty_band_warns (yf : list C) (h : heap) :
  clean_spectrum yf [] h
    = (h, [Print warning_line; Print hint_line], Ok yf).
Proof. reflexivity. Qed.

(** A band that holds the last bin has no bin above it: line 264 reads
    past the end of the spectrum. *)
Lemma last_bin_band_raises (a b c : C) (h : heap) :
  clean_spectrum [a; b; c] [2%nat] h = (h, [], Raise IndexError).
Proof. reflexivity. Qed.

(** C2 (the code departs from it): on a series of four yearly samples
    the bins are 0, 1/4 and 1/2; with [freq = 0] and [radius = 1/10] the
    band holds bin 0 and no other, yet the test of line 262, [any(idx)],
    is false for the index 0: the warning is printed and the spectrum is
    passed on as it is. *)
Theorem zero_bin_band_unfiltered :
  exists yf y,
    rfftfreq (length (labels (time even_series))) (1 - 0) true
      = Ok even_bins /\
    band_indices even_bins 0 (1 # 10) = [0%nat] /\
    rfft (even_heap !!! data even_series) = Ok yf /\
    clean_spectrum yf (band_indices even_bins 0 (1 # 10)) even_heap
      = (even_heap, [Print warning_line; Print hint_line], Ok yf) /\
    irfft yf = Ok y /\
    _remove_seasonality_fourier even_series 0 (1 # 10) false even_heap =
      (<[0%nat := y]> even_heap,
       [Print warning_line; Print hint_line],
       Ok even_series).
Proof.
  destruct even_series_bins as [Hsp Hxf].
  destruct (even_series_run 0 (1 # 10)) as (yf & y & Hyf & Hy & _ & Hrun);
    [vm_compute; reflexivity|].
  exists yf, y. split; [exact Hxf|].
  split; [vm_compute; reflexivity|].
  rewrite even_heap_buffer. split; [exact Hyf|].
  split; [reflexivity|]. split; [exact Hy|].
  apply (Hrun even_heap 0%nat _ even_heap_buffer).
Qed.

(** *** Short date axes *)

Lemma sample_spacing_short_dates (ax : TimeAxis) :
  kind ax = DateK -> (length (labels ax) < 12)%nat ->
  sample_spacing ax = Raise IndexError.
Proof.
  intros Hk Hlen. unfold sample_spacing, py_index.
  destruct (labels ax !! 0%nat) eqn:E0; [|reflexivity]. simpl.
  rewrite Hk. rewrite (lookup_ge_None_2 (labels ax) 11) by lia.
  reflexivity.
Qed.

Lemma sample_spacing_type_error (ax : TimeAxis) :
  sample_spacing ax = Raise TypeError_time -> kind ax = OtherK.
Proof.
  unfold sample_spacing, py_index.
  destruct (labels ax !! 0%nat); [|discriminate]. simpl.
  destruct (kind ax); [| |reflexivity].
  - destruct (labels ax !! 1%nat); [|discriminate]. discriminate.
  - destruct (labels ax !! 11%nat); [|discriminate]. simpl.
    destruct (labels ax !! 10%nat); discriminate.
Qed.

Lemma fourier_type_error arr freq radius plot h h' log :
  _remove_seasonality_fourier arr freq radius plot h
    = (h', log, Raise UnsupportedTimeAxis) ->
  kind (time arr) = OtherK.
Proof.
  unfold _remove_seasonality_fourier, UnsupportedTimeAxis. intros H.
  apply run_bind_raise in H as [H | (h1 & l1 & [sp np] & l2 & _ & H & _)].
  { apply lift_inv in H as (_ & _ & H).
    by apply sample_spacing_type_error. }
  apply run_bind_raise in H as [H | (h2 & l3 & values & l4 & _ & H & _)];
    [discriminate|].
  apply run_bind_raise in H as [H | (h3 & l5 & yf & l6 & _ & H & _)].
  { apply lift_inv in H as (_ & _ & H). unfold rfft in H.
    destruct (_ =? _)%nat; discriminate. }
  apply run_bind_raise in H as [H | (h4 & l7 & xf & l8 & _ & H & _)].
  { apply lift_inv in H as (_ & _ & H). unfold rfftfreq in H.
    destruct (Qeq_bool _ _); [destruct np|]; discriminate. }
  apply run_bind_raise in H as [H | (h5 & l9 & yfc & l10 & _ & H & _)].
  { unfold clean_spectrum in H. destruct (py_any _); [|discriminate].
    apply lift_inv in H as (_ & _ & H). symmetry in H. unfold fill_band in H.
    apply bind_result_raise in H as [H | (below & _ & H)].
    { unfold np_index, py_index in H.
      destruct (_ <? 0)%Z; [discriminate|].
      destruct (yf !! _); discriminate. }
    apply bind_result_raise in H as [H | (above & _ & H)].
    { unfold np_index, py_index in H.
      destruct (_ <? 0)%Z; [discriminate|].
      destruct (yf !! _); discriminate. }
    destruct (forallb _ _); discriminate. }
  apply run_bind_raise in H as [H | (h6 & l11 & y & l12 & _ & H & _)].
  { apply lift_inv in H as (_ & _ & H). unfold irfft in H.
    destruct (_ =? _)%nat; discriminate. }
  apply run_bind_raise in H as [H | (h7 & l13 & u & l14 & _ & H & _)].
  { destruct plot; discriminate. }
  apply run_bind_raise in H as [H | (h8 & l15 & u' & l16 & _ & H & _)];
    [|discriminate].
  unfold overwrite_prefix in H.
  apply run_bind_raise in H as [H | (h9 & l17 & old & l18 & _ & H & _)];
    [discriminate|].
  destruct (_ <=? _)%nat; discriminate.
Qed.

(** C10: an array whose time axis holds dates, with fewer than 12 of
    them, makes the filter raise [IndexError], with nothing printed and
    no buffer overwritten, whether it is passed alone or in a list;
    [UnsupportedTimeAxis] is raised only for a time axis whose elements
    are neither floats nor dates. *)
Theorem short_date_axis_index_error (h : heap) (arr : DataArray)
    (freq radius : Q) (plot : bool) :
  kind (time arr) = DateK ->
  (length (labels (time arr)) < 12)%nat ->
  _remove_seasonality_fourier arr freq radius plot h
    = (h, [], Raise IndexError) /\
  (exists h', remove_seasonality (One arr) freq radius plot h
                = (h', [], Raise IndexError) /\
              forall l, is_Some (h !! l) -> h' !! l = h !! l) /\
  remove_seasonality (Many [arr]) freq radius plot h
    = (h, [], Raise IndexError) /\
  (forall arr' h0 h1 lg,
     _remove_seasonality_fourier arr' freq radius plot h0
       = (h1, lg, Raise UnsupportedTimeAxis) ->
     kind (time arr') = OtherK).
Proof.
  intros Hk Hlen.
  assert (Hrun : forall h0 l,
    _remove_seasonality_fourier (mkDA l (time arr) (attrs arr))
      freq radius plot h0 = (h0, [], Raise IndexError)).
  { intros h0 l. unfold _remove_seasonality_fourier. rewrite bind_run.
    unfold lift. simpl. rewrite (sample_spacing_short_dates _ Hk Hlen).
    reflexivity. }
  assert (Harr : _remove_seasonality_fourier arr freq radius plot h
                 = (h, [], Raise IndexError)).
  { destruct arr as [l ax a]. apply Hrun. }
  split; [exact Harr|]. split; [|split].
  - eexists. split.
    + simpl. rewrite bind_run. unfold copy. rewrite bind_run, Hrun.
      reflexivity.
    + intros l Hl. apply lookup_insert_ne. intros <-.
      apply (is_fresh (dom h)). by apply elem_of_dom.
  - simpl. rewrite bind_run. simpl. rewrite bind_run, Harr. reflexivity.
  - intros arr' h0 h1 lg. apply fourier_type_error.
Qed.

Lemma short_date_axis_index_error_witness :
  kind (time short_dates) = DateK /\
  (length (labels (time short_dates)) < 12)%nat /\
  _remove_seasonality_fourier short_dates 1 (1 # 100) false short_heap
    = (short_heap, [], Raise IndexError).
Proof.
  assert (Hk : kind (time short_dates) = DateK) by reflexivity.
  assert (Hlen : (length (labels (time short_dates)) < 12)%nat)
    by (simpl; lia).
  split; [exact Hk|]. split; [exact Hlen|].
  exact (proj1 (short_date_axis_index_error short_heap short_dates
                  1 (1 # 100) false Hk Hlen)).
Defined.

End FilterFacts.

(** ** More on the Seasonality Filter *)

Section FilterExtra.
Import Filter.

Lemma clean_spectrum_pure (yf : list C) (idx : list nat) (h : heap) :
  (clean_spectrum yf idx h).1.1 = h.
Proof. unfold clean_spectrum. by destruct (py_any idx). Qed.

(** One run, as the sequence of its steps. *)
Lemma fourier_steps (arr : DataArray) (freq radius : Q) (plot : bool)
    (h : heap) :
  _remove_seasonality_fourier arr freq radius plot h =
  match sample_spacing (time arr) with
  | Raise e => (h, [], Raise e)
  | Ok (sp, np) =>
    match rfft (h !!! data arr) with
    | Raise e => (h, [], Raise e)
    | Ok yf =>
      match rfftfreq (length (labels (time arr))) sp np with
      | Raise e => (h, [], Raise e)
      | Ok xf =>
        match clean_spectrum yf (band_indices xf freq radius) h with
        | (_, lg, Raise e) => (h, lg, Raise e)
        | (_, lg, Ok yf_clean) =>
          match irfft yf_clean with
          | Raise e => (h, lg, Raise e)
          | Ok y =>
            let shown := if plot then [ShowPlot] else [] in
            if (length y <=? length (h !!! data arr))%nat
            then (<[data arr := y ++ drop (length y) (h !!! data arr)]> h,
                  lg ++ shown,
                  Ok (mkDA (data arr) (time arr) (attrs arr)))
            else (h, lg ++ shown, Raise ValueError_broadcast)
          end
        end
      end
    end
  end.
Proof.
  unfold _remove_seasonality_fourier.
  rewrite bind_run. unfold lift at 1.
  destruct (sample_spacing (time arr)) as [[sp np]|e]; [|reflexivity].
  rewrite bind_run. unfold read at 1.
  rewrite bind_run. unfold lift at 1.
  destruct (rfft (h !!! data arr)) as [yf|e]; [|reflexivity].
  rewrite bind_run. unfold lift at 1.
  destruct (rfftfreq _ sp np) as [xf|e]; [|reflexivity].
  rewrite bind_run.
  pose proof (clean_spectrum_pure yf (band_indices xf freq radius) h) as Hh.
  destruct (clean_spectrum yf (band_indices xf freq radius) h)
    as [[h1 lg] [yf_clean|e]]; simpl in Hh; subst h1; [|reflexivity].
  rewrite bind_run. unfold lift at 1.
  destruct (irfft yf_clean) as [y|e]; [|simpl; by rewrite app_nil_r].
  rewrite bind_run. unfold overwrite_prefix.
  destruct plot; simpl; rewrite !bind_run; unfold read;
    destruct (length y <=? length (h !!! data arr))%nat; simpl;
    rewrite ?app_nil_r; reflexivity.
Qed.

Lemma raise_keeps_heap (arr : DataArray) (freq radius : Q)
    (plot : bool) (h h' : heap) (log : list event) (e : exn) :
  _remove_seasonality_fourier arr freq radius plot h = (h', log, Raise e) ->
  h' = h.
Proof.
  rewrite fourier_steps.
  destruct (sample_spacing _) as [[sp np]|e1]; [|by intros [= <- _ _]].
  destruct (rfft _) as [yf|e1]; [|by intros [= <- _ _]].
  destruct (rfftfreq _ _ _) as [xf|e1]; [|by intros [= <- _ _]].
  destruct (clean_spectrum _ _ _) as [[h1 lg] [yfc|e1]];
    [|by intros [= <- _ _]].
  destruct (irfft _) as [y|e1]; [|by intros [= <- _ _]].
  cbv zeta. destruct (_ <=? _)%nat; [discriminate | by intros [= <- _ _]].
Qed.

(** A run that raises has overwritten nothing: the store is as it was
    before the call. *)
Theorem failure_leaves_buffers (arr : DataArray) (freq radius : Q)
    (plot : bool) (h h' : heap) (log : list event) (e : exn) :
  _remove_seasonality_fourier arr freq radius plot h = (h', log, Raise e) ->
  h' = h.
Proof.
  rewrite fourier_steps.
  destruct (sample_spacing _) as [[sp np]|e1]; [|by intros [= <- _ _]].
  destruct (rfft _) as [yf|e1]; [|by intros [= <- _ _]].
  destruct (rfftfreq _ _ _) as [xf|e1]; [|by intros [= <- _ _]].
  destruct (clean_spectrum _ _ _) as [[h1 lg] [yfc|e1]];
    [|by intros [= <- _ _]].
  destruct (irfft _) as [y|e1]; [|by intros [= <- _ _]].
  cbv zeta. destruct (_ <=? _)%nat; [discriminate | by intros [= <- _ _]].
Qed.

Lemma failure_leaves_buffers_witness :
  exists h' log e,
    _remove_seasonality_fourier short_dates 1 (1 # 100) false short_heap
      = (h', log, Raise e) /\ h' = short_heap.
Proof.
  assert (Hrun : _remove_seasonality_fourier short_dates 1 (1 # 100) false
                   short_heap = (short_heap, [], Raise IndexError)).
  { rewrite fourier_steps. reflexivity. }
  exists short_heap, [], IndexError. split; [exact Hrun|].
  exact (failure_leaves_buffers _ _ _ _ _ _ _ _ Hrun).
Defined.

(** *** A list that fails part way *)

Lemma for_each_run_stops {A B : Type} (f : A -> M B) (pre rest : list A)
    (b : A) h h1 l1 outs h2 l2 e :
  for_each f pre h = (h1, l1, Ok outs) ->
  f b h1 = (h2, l2, Raise e) ->
  for_each f (pre ++ b :: rest) h = (h2, l1 ++ l2, Raise e).
Proof.
  revert h h1 l1 outs. induction pre as [|a pre IH];
    intros h h1 l1 outs Hpre Hb; simpl in *.
  - injection Hpre as <- <- _. rewrite bind_run, Hb. reflexivity.
  - apply run_bind_ok in Hpre as (h3 & l3 & a' & l4 & Ha & Hpre & ->).
    apply run_bind_ok in Hpre as (h4 & l5 & as' & l6 & Has & Hret & ->).
    injection Hret as <- <- _.
    rewrite bind_run, Ha. rewrite bind_run.
    rewrite (IH _ _ _ _ Has Hb). by rewrite app_nil_r, app_assoc.
Qed.

(** When the filter raises on an array of a list, the call raises that
    exception and the arrays before it stay overwritten: the store is
    the one the filter left after them. *)
Theorem batch_stops_at_failure (pre rest outs : list DataArray)
    (b : DataArray) (freq radius : Q) (plot : bool)
    (h h1 h2 : heap) (l1 l2 : list event) (e : exn) :
  remove_seasonality (Many pre) freq radius plot h
    = (h1, l1, Ok (Many outs)) ->
  _remove_seasonality_fourier b freq radius plot h1 = (h2, l2, Raise e) ->
  remove_seasonality (Many (pre ++ b :: rest)) freq radius plot h
    = (h1, l1 ++ l2, Raise e).
Proof.
  simpl. intros Hpre Hb.
  apply run_bind_ok in Hpre as (h3 & l3 & outs' & l4 & Hpre & Hret & ->).
  injection Hret as <- <- _.
  pose proof (raise_keeps_heap _ _ _ _ _ _ _ _ Hb) as ->.
  rewrite bind_run.
  rewrite (for_each_run_stops _ pre rest b _ _ _ _ _ _ _ Hpre Hb).
  by rewrite app_nil_r.
Qed.

Lemma batch_stops_at_failure_witness :
  exists y,
    length y = 4%nat /\
    remove_seasonality (Many [even_series; short_dates]) 1 (1 # 100) false
      even_heap
    = (<[0%nat := y]> even_heap,
       [Print warning_line; Print hint_line], Raise IndexError).
Proof.
  destruct (even_series_run 1 (1 # 100)) as (yf & y & _ & _ & Hlen & Hrun);
    [vm_compute; reflexivity|].
  specialize (Hrun even_heap 0%nat {[ "ensemble" := "ens1" ]}
                even_heap_buffer).
  exists y. split; [exact Hlen|].
  rewrite <- (app_nil_r [Print warning_line; Print hint_line]).
  apply (batch_stops_at_failure [even_series] [] [even_series] short_dates
           1 (1 # 100) false even_heap (<[0%nat := y]> even_heap)
           (<[0%nat := y]> even_heap)).
  - simpl. rewrite bind_run. simpl. rewrite bind_run.
    unfold even_series. rewrite Hrun. reflexivity.
  - rewrite fourier_steps. reflexivity.
Defined.

(** *** The plot flag *)

(** The plot flag changes neither the store nor what the call returns
    or raises; a call that returns has shown the plot once, after every
    printed line. *)
Theorem plot_only_shows (arr : DataArray) (freq radius : Q) (h : heap) :
  let quiet := _remove_seasonality_fourier arr freq radius false h in
  let shown := _remove_seasonality_fourier arr freq radius true h in
  shown.1.1 = quiet.1.1 /\ shown.2 = quiet.2 /\
  (forall out, quiet.2 = Ok out -> shown.1.2 = quiet.1.2 ++ [ShowPlot]).
Proof.
  cbv zeta. rewrite !fourier_steps.
  destruct (sample_spacing _) as [[sp np]|e1]; [|by repeat split].
  destruct (rfft _) as [yf|e1]; [|by repeat split].
  destruct (rfftfreq _ _ _) as [xf|e1]; [|by repeat split].
  destruct (clean_spectrum _ _ _) as [[h1 lg] [yfc|e1]]; [|by repeat split].
  destruct (irfft _) as [y|e1]; [|by repeat split].
  cbv zeta. destruct (_ <=? _)%nat; simpl; repeat split; try done.
  intros out _. by rewrite app_nil_r.
Qed.

Lemma plot_only_shows_witness :
  (_remove_seasonality_fourier even_series 1 (1 # 100) true even_heap).1.2
    = [Print warning_line; Print hint_line; ShowPlot].
Proof.
  destruct (even_series_run 1 (1 # 100)) as (yf & y & _ & _ & _ & Hrun);
    [vm_compute; reflexivity|].
  specialize (Hrun even_heap 0%nat {[ "ensemble" := "ens1" ]}
                even_heap_buffer).
  destruct (plot_only_shows even_series 1 (1 # 100) even_heap)
    as (_ & _ & Hlog).
  unfold even_series in Hlog. rewrite Hrun in Hlog.
  exact (Hlog _ eq_refl).
Defined.

(** *** Time axes the filter refuses *)

(** An empty time axis and a float axis of a single sample raise
    [IndexError]; an axis that is not empty and holds neither floats nor
    dates raises [UnsupportedTimeAxis]; in each case nothing is printed
    and the store is as before. *)
Theorem time_axis_errors (arr : DataArray) (freq radius : Q) (plot : bool)
    (h : heap) :
  (labels (time arr) = [] ->
   _remove_seasonality_fourier arr freq radius plot h
     = (h, [], Raise IndexError)) /\
  (kind (time arr) = FloatK -> length (labels (time arr)) = 1%nat ->
   _remove_seasonality_fourier arr freq radius plot h
     = (h, [], Raise IndexError)) /\
  (kind (time arr) = OtherK -> labels (time arr) <> [] ->
   _remove_seasonality_fourier arr freq radius plot h
     = (h, [], Raise UnsupportedTimeAxis)).
Proof.
  rewrite fourier_steps. unfold sample_spacing, py_index.
  destruct (time arr) as [k ts]. simpl. repeat split.
  - intros ->. reflexivity.
  - intros -> Hlen. destruct ts as [|t [|t' ts]]; try discriminate.
    reflexivity.
  - intros -> Hne. destruct ts as [|t ts]; [congruence|]. reflexivity.
Qed.

Lemma time_axis_errors_witness :
  _remove_seasonality_fourier int_series 1 (1 # 100) false even_heap
    = (even_heap, [], Raise UnsupportedTimeAxis).
Proof.
  apply (time_axis_errors int_series 1 (1 # 100) false even_heap).
  - reflexivity.
  - discriminate.
Defined.

(** *** Time samples that coincide *)

Lemma band_indices_no_bins (m : nat) (freq radius : Q) :
  band_indices (replicate m None) freq radius = [].
Proof.
  unfold band_indices. generalize 0%nat.
  induction m as [|m IH]; intros j; simpl; [reflexivity|]. apply IH.
Qed.

(** On a date axis whose samples 10 and 11 coincide the spacing is zero
    and the filter raises [ZeroDivisionError], with the store as
    before. *)
Theorem date_zero_spacing (arr : DataArray) (freq radius : Q) (plot : bool)
    (h : heap) (t10 t11 : Q) :
  kind (time arr) = DateK ->
  labels (time arr) !! 11%nat = Some t11 ->
  labels (time arr) !! 10%nat = Some t10 ->
  (t11 == t10)%Q ->
  h !!! data arr <> [] ->
  _remove_seasonality_fourier arr freq radius plot h
    = (h, [], Raise ZeroDivisionError).
Proof.
  intros Hk H11 H10 Heq Hbuf. rewrite fourier_steps.
  unfold sample_spacing, py_index. rewrite Hk.
  destruct (labels (time arr) !! 0%nat) eqn:E0.
  2:{ apply lookup_ge_None in E0. apply lookup_lt_Some in H10. lia. }
  simpl. rewrite H11. simpl. rewrite H10. simpl.
  unfold rfft. destruct (length (h !!! data arr) =? 0)%nat eqn:En.
  { apply Nat.eqb_eq in En. destruct (h !!! data arr); [congruence|].
    discriminate. }
  unfold rfftfreq.
  replace (Qeq_bool _ 0) with true; [reflexivity|].
  symmetry. apply Qeq_bool_iff. rewrite Heq. unfold Qdiv, Qminus. ring.
Qed.

Lemma even_heap_at_0 : even_heap !!! 0%nat = [1; 2; 3; 4]%R.
Proof. apply lookup_total_singleton_eq. Qed.

Lemma date_zero_spacing_witness :
  _remove_seasonality_fourier stalled_dates 1 (1 # 100) false even_heap
    = (even_heap, [], Raise ZeroDivisionError).
Proof.
  apply (date_zero_spacing stalled_dates 1 (1 # 100) false even_heap 0 0).
  - reflexivity.
  - reflexivity.
  - reflexivity.
  - reflexivity.
  - change (data stalled_dates) with 0%nat. rewrite even_heap_at_0.
    discriminate.
Defined.

(** On a float axis whose first two samples coincide no bin is finite,
    so no band holds a bin: whatever the frequency and the radius, the
    filter prints the warning and writes back the inverse transform of
    the spectrum as it was. *)
Theorem float_zero_spacing (arr : DataArray) (freq radius : Q) (plot : bool)
    (h : heap) (t0 t1 : Q) :
  kind (time arr) = FloatK ->
  labels (time arr) !! 1%nat = Some t1 ->
  labels (time arr) !! 0%nat = Some t0 ->
  (t1 == t0)%Q ->
  (2 <= length (h !!! data arr))%nat ->
  exists yf y,
    rfft (h !!! data arr) = Ok yf /\ irfft yf = Ok y /\
    _remove_seasonality_fourier arr freq radius plot h =
      (<[data arr := y ++ drop (length y) (h !!! data arr)]> h,
       [Print warning_line; Print hint_line] ++
         (if plot then [ShowPlot] else []),
       Ok (mkDA (data arr) (time arr) (attrs arr))).
Proof.
  intros Hk H1 H0 Heq Hbuf.
  apply (fourier_run_unfiltered h arr freq radius plot (t1 - t0)%Q true
           (replicate (length (labels (time arr)) / 2 + 1) None)).
  - unfold sample_spacing, py_index. rewrite Hk, H0. simpl.
    rewrite H1. reflexivity.
  - unfold rfftfreq. replace (Qeq_bool _ 0) with true; [reflexivity|].
    symmetry. apply Qeq_bool_iff. rewrite Heq. unfold Qminus. ring.
  - rewrite band_indices_no_bins. reflexivity.
  - exact Hbuf.
Qed.

Lemma float_zero_spacing_witness :
  exists yf y,
    rfft [1; 2; 3; 4]%R = Ok yf /\ irfft yf = Ok y /\
    _remove_seasonality_fourier stalled_series 1 (1 # 2) false even_heap =
      (<[0%nat := y ++ drop (length y) [1; 2; 3; 4]%R]> even_heap,
       [Print warning_line; Print hint_line],
       Ok stalled_series).
Proof.
  destruct (float_zero_spacing stalled_series 1 (1 # 2) false even_heap 0 0)
    as (yf & y & Hyf & Hy & Hrun).
  - reflexivity.
  - reflexivity.
  - reflexivity.
  - reflexivity.
  - change (data stalled_series) with 0%nat. rewrite even_heap_at_0.
    simpl. lia.
  - change (data stalled_series) with 0%nat in *.
    rewrite even_heap_at_0 in Hyf, Hrun.
    exists yf, y. split; [exact Hyf|]. split; [exact Hy|]. exact Hrun.
Defined.

(** *** The band *)





(** With a radius that is zero or negative no bin is in the band: the
    warning is printed and the spectrum passed on as it is. *)
Theorem nonpositive_radius_never_filters (xf : list (option Q))
    (yf : list C) (freq radius : Q) (h : heap) :
  (radius <= 0)%Q ->
  band_indices xf freq radius = [] /\
  clean_spectrum yf (band_indices xf freq radius) h
    = (h, [Print warning_line; Print hint_line], Ok yf).
Proof.
  intros Hr.
  assert (Hnone : forall f, in_band freq radius f = false).
  { intros [x|]; [|reflexivity]. simpl.
    destruct (Qlt_bool (freq - radius) x) eqn:Hlo; [|reflexivity].
    destruct (Qlt_bool x (freq + radius)) eqn:Hhi; [|reflexivity].
    exfalso. apply Qlt_bool_iff in Hlo, Hhi.
    apply (Qlt_not_le _ _ (Qlt_trans _ _ _ Hlo Hhi)).
    unfold Qminus. apply Qplus_le_compat; [apply Qle_refl|].
    apply Qle_trans with 0%Q; [exact Hr|].
    change 0%Q with (- 0)%Q. by apply Qopp_le_compat. }
  assert (Hidx : band_indices xf freq radius = []).
  { unfold band_indices. generalize 0%nat.
    induction xf as [|f xf IH]; intros j; simpl; [reflexivity|].
    rewrite Hnone. simpl. apply IH. }
  split; [exact Hidx|]. rewrite Hidx. reflexivity.
Qed.

Lemma nonpositive_radius_never_filters_witness :
  band_indices even_bins (1 # 4) 0 = [].
Proof.
  apply (nonpositive_radius_never_filters even_bins [] (1 # 4) 0 even_heap).
  discriminate.
Defined.

(** *** The values written into the band *)

Lemma linspace_first (lo hi : C) (k : nat) :
  Cadd lo (Cscale (INR 0 / INR (k - 1))%R (Csub hi lo)) = lo.
Proof.
  destruct lo as [a b], hi as [c d]. unfold Cadd, Cscale, Csub. simpl.
  f_equal; unfold Rdiv; ring.
Qed.

Lemma linspace_last (lo hi : C) (k : nat) :
  (2 <= k)%nat ->
  Cadd lo (Cscale (INR (k - 1) / INR (k - 1))%R (Csub hi lo)) = hi.
Proof.
  intros Hk. assert (Hne : INR (k - 1) <> 0%R) by (apply not_0_INR; lia).
  destruct lo as [a b], hi as [c d]. unfold Cadd, Cscale, Csub. simpl.
  f_equal; field; exact Hne.
Qed.

(** For a band of [k] consecutive bins from bin [i] on, with a bin
    below and a bin above it, nothing is printed and only the bins of
    the band change: bin [i + j] receives the value [j / (k - 1)] of the
    way from the bin below to the bin above.  The end points are part of
    the line: the first bin of the band takes the value of the bin
    below it and, when the band has two bins or more, the last takes the
    value of the bin above it. *)
Theorem band_interpolation (yf : list C) (i k : nat) (below above : C)
    (h : heap) :
  (1 <= i)%nat -> (1 <= k)%nat ->
  yf !! (i - 1)%nat = Some below -> yf !! (i + k)%nat = Some above ->
  exists yf',
    clean_spectrum yf (seq i k) h = (h, [], Ok yf') /\
    length yf' = length yf /\
    (forall j, (j < k)%nat ->
       yf' !! (i + j)%nat =
       Some (Cadd below (Cscale (INR j / INR (k - 1))%R (Csub above below)))) /\
    (forall p, (p < i \/ i + k <= p)%nat -> yf' !! p = yf !! p) /\
    yf' !! i = Some below /\
    ((2 <= k)%nat -> yf' !! (i + k - 1)%nat = Some above).
Proof.
  intros Hi Hk Hbelow Habove.
  destruct (interior_band_interpolated yf i k below above h Hi Hk
              Hbelow Habove) as (yf' & Hrun & Hlen & Hin & Hout).
  exists yf'. repeat split; try assumption.
  - rewrite <- (Nat.add_0_r i) at 1. rewrite (Hin 0%nat) by lia.
    by rewrite linspace_first.
  - intros H2. replace (i + k - 1)%nat with (i + (k - 1))%nat by lia.
    rewrite (Hin (k - 1)%nat) by lia. by rewrite linspace_last.
Qed.

Lemma band_interpolation_witness :
  exists yf',
    clean_spectrum [(1, 0); (5, 5); (7, 7); (4, 0)]%R (seq 1 2) even_heap
      = (even_heap, [], Ok yf') /\
    yf' !! 1%nat = Some (1, 0)%R /\ yf' !! 2%nat = Some (4, 0)%R.
Proof.
  destruct (band_interpolation [(1, 0); (5, 5); (7, 7); (4, 0)]%R 1 2
              (1, 0)%R (4, 0)%R even_heap)
    as (yf' & Hrun & _ & _ & _ & Hfirst & Hlast).
  - lia.
  - lia.
  - reflexivity.
  - reflexivity.
  - exists yf'. split; [exact Hrun|]. split; [exact Hfirst|].
    apply Hlast. lia.
Defined.

Lemma py_any_seq (i k : nat) :
  (1 <= k)%nat -> (1 <= i \/ 2 <= k)%nat -> py_any (seq i k) = true.
Proof.
  intros Hk H. destruct k as [|k]; [lia|]. simpl.
  destruct i as [|i]; [|reflexivity]. simpl.
  destruct k as [|k]; [lia|]. reflexivity.
Qed.

Lemma seq_ends (i k : nat) :
  (1 <= k)%nat ->
  hd 0%nat (seq i k) = i /\ List.last (seq i k) 0%nat = (i + k - 1)%nat.
Proof.
  intros Hk. split; [destruct k; [lia | reflexivity]|].
  replace k with (S (k - 1)) at 1 by lia. rewrite seq_S, last_last. lia.
Qed.

(** A band that reaches the last bin of the spectrum has no bin above
    it: the filter raises [IndexError] and nothing is overwritten. *)
Theorem band_at_last_bin_raises (yf : list C) (i k : nat) (h : heap) :
  (1 <= i)%nat -> (1 <= k)%nat -> (i + k)%nat = length yf ->
  clean_spectrum yf (seq i k) h = (h, [], Raise IndexError).
Proof.
  intros Hi Hk Hlen. unfold clean_spectrum.
  rewrite py_any_seq by lia. unfold lift, fill_band.
  destruct (seq_ends i k Hk) as [-> ->]. unfold np_index, py_index.
  assert (E1 : (Z.of_nat i - 1 <? 0)%Z = false) by (apply Z.ltb_ge; lia).
  assert (E2 : (Z.of_nat (i + k - 1) + 1 <? 0)%Z = false)
    by (apply Z.ltb_ge; lia).
  rewrite !E1, !E2.
  replace (Z.to_nat (Z.of_nat i - 1)) with (i - 1)%nat by lia.
  replace (Z.to_nat (Z.of_nat (i + k - 1) + 1)) with (length yf) by lia.
  destruct (yf !! (i - 1)%nat) eqn:Eb.
  2:{ apply lookup_ge_None in Eb. lia. }
  simpl. rewrite (lookup_ge_None_2 yf (length yf)) by lia. reflexivity.
Qed.

Lemma band_at_last_bin_raises_witness :
  clean_spectrum [(1, 0); (5, 5); (7, 7)]%R
    (band_indices even_bins (1 # 2) (1 # 10)) even_heap
    = (even_heap, [], Raise IndexError).
Proof.
  change (band_indices even_bins (1 # 2) (1 # 10)) with (seq 2 1).
  apply band_at_last_bin_raises; simpl; lia.
Defined.

(** A band of two bins or more that starts at bin 0 has no bin below
    it: the index [-1] wraps around, and the band is filled from the last
    bin of the spectrum to the bin above the band. *)
Theorem band_from_zero_wraps (yf : list C) (k : nat) (top above : C)
    (h : heap) :
  (2 <= k)%nat ->
  yf !! (length yf - 1)%nat = Some top -> yf !! k = Some above ->
  exists yf',
    clean_spectrum yf (seq 0 k) h = (h, [], Ok yf') /\
    (forall j, (j < k)%nat ->
       yf' !! j =
       Some (Cadd top (Cscale (INR j / INR (k - 1))%R (Csub above top)))) /\
    yf' !! 0%nat = Some top /\
    (forall p, (k <= p)%nat -> yf' !! p = yf !! p).
Proof.
  intros Hk Htop Habove.
  assert (Hlen : (k < length yf)%nat) by (eapply lookup_lt_Some; eauto).
  assert (Hall : forallb (fun a => a <? length yf)%nat (seq 0 k) = true).
  { apply forallb_forall. intros a Ha. apply in_seq in Ha.
    apply Nat.ltb_lt. lia. }
  assert (Hlook : forall p,
    assign_at yf (seq 0 k) (linspace top above k) !! p =
    if bool_decide (0 <= p < 0 + k)%nat
    then linspace top above k !! (p - 0)%nat else yf !! p).
  { intros p.
    pose proof (assign_at_seq_lookup (linspace top above k) yf 0 p) as H.
    rewrite linspace_length in H. apply H. lia. }
  assert (Hfill : forall j, (j < k)%nat ->
    assign_at yf (seq 0 k) (linspace top above k) !! j =
    Some (Cadd top (Cscale (INR j / INR (k - 1))%R (Csub above top)))).
  { intros j Hj. rewrite Hlook. rewrite bool_decide_eq_true_2 by lia.
    rewrite Nat.sub_0_r. unfold linspace. by rewrite map_seq_lookup. }
  exists (assign_at yf (seq 0 k) (linspace top above k)).
  split; [|split; [exact Hfill|split]].
  - unfold clean_spectrum. rewrite py_any_seq by lia.
    unfold lift, fill_band.
    destruct (seq_ends 0 k) as [-> ->]; [lia|].
    unfold np_index, py_index.
    assert (E1 : (Z.of_nat 0 - 1 <? 0)%Z = true) by reflexivity.
    assert (E2 : (Z.of_nat 0 - 1 + Z.of_nat (length yf) <? 0)%Z = false)
      by (apply Z.ltb_ge; lia).
    assert (E3 : (Z.of_nat (0 + k - 1) + 1 <? 0)%Z = false)
      by (apply Z.ltb_ge; lia).
    rewrite E1, E2, !E3.
    replace (Z.to_nat (Z.of_nat 0 - 1 + Z.of_nat (length yf)))
      with (length yf - 1)%nat by lia.
    replace (Z.to_nat (Z.of_nat (0 + k - 1) + 1)) with k by lia.
    rewrite Htop. simpl. rewrite Habove. simpl.
    rewrite Hall, length_seq. reflexivity.
  - rewrite (Hfill 0%nat) by lia. by rewrite linspace_first.
  - intros p Hp. rewrite Hlook. rewrite bool_decide_eq_false_2 by lia.
    reflexivity.
Qed.

Lemma band_from_zero_wraps_witness :
  exists yf',
    clean_spectrum [(1, 0); (5, 5); (7, 7); (4, 0)]%R (seq 0 2) even_heap
      = (even_heap, [], Ok yf') /\
    yf' !! 0%nat = Some (4, 0)%R.
Proof.
  destruct (band_from_zero_wraps [(1, 0); (5, 5); (7, 7); (4, 0)]%R 2
              (4, 0)%R (7, 7)%R even_heap)
    as (yf' & Hrun & _ & Hfirst & _).
  - lia.
  - reflexivity.
  - reflexivity.
  - exists yf'. split; [exact Hrun | exact Hfirst].
Defined.

(** *** A series of zeros *)

Lemma map_seq_const {A : Type} (f : nat -> A) (c : A) (i q : nat) :
  (forall k, f k = c) -> map f (seq i q) = replicate q c.
Proof.
  intros Hf. revert i. induction q as [|q IH]; intros i; simpl;
    [reflexivity|]. by rewrite Hf, IH.
Qed.

Lemma dft_sum_zero (n k j m : nat) :
  dft_sum n k j (replicate m 0%R) = (0, 0)%R.
Proof.
  revert j. induction m as [|m IH]; intros j; simpl; [reflexivity|].
  rewrite IH. unfold Cadd. simpl. f_equal; ring.
Qed.

Lemma rfft_zero (m : nat) :
  (1 <= m)%nat ->
  rfft (replicate m 0%R) = Ok (replicate (m / 2 + 1) (0, 0)%R).
Proof.
  intros Hm. unfold rfft. rewrite length_replicate.
  destruct (m =? 0)%nat eqn:E; [apply Nat.eqb_eq in E; lia|].
  f_equal. apply map_seq_const. intros k. apply dft_sum_zero.
Qed.

Lemma inverse_sum_zero (m n t k q : nat) :
  inverse_sum m n t k (replicate q (0, 0)%R) = 0%R.
Proof.
  revert k. induction q as [|q IH]; intros k; simpl; [reflexivity|].
  rewrite IH. unfold inverse_term. simpl.
  destruct (_ || _); ring.
Qed.

Lemma irfft_zero (q : nat) (y : list R) :
  irfft (replicate q (0, 0)%R) = Ok y ->
  y = replicate (2 * (q - 1)) 0%R.
Proof.
  unfold irfft. rewrite length_replicate.
  destruct (2 * (q - 1) =? 0)%nat; [discriminate|]. intros [= <-].
  apply map_seq_const. intros t. rewrite inverse_sum_zero.
  unfold Rdiv. ring.
Qed.

Lemma assign_at_zero (q : nat) (idx : list nat) (fill : list C) :
  Forall (fun v => v = (0, 0)%R) fill ->
  assign_at (replicate q (0, 0)%R) idx fill = replicate q (0, 0)%R.
Proof.
  intros Hfill. revert idx.
  induction Hfill as [|v fill -> _ IH]; intros [|i idx]; simpl;
    try reflexivity.
  rewrite insert_replicate. apply IH.
Qed.

Lemma np_index_zero (q : nat) (i : Z) (v : C) :
  np_index (replicate q (0, 0)%R) i = Ok v -> v = (0, 0)%R.
Proof.
  unfold np_index, py_index. destruct (_ <? 0)%Z; [discriminate|].
  destruct (replicate q _ !! _) as [x|] eqn:E; [|discriminate].
  intros [= <-]. by apply lookup_replicate in E as [-> _].
Qed.

Lemma clean_spectrum_zero (q : nat) (idx : list nat) h h' lg yfc :
  clean_spectrum (replicate q (0, 0)%R) idx h = (h', lg, Ok yfc) ->
  yfc = replicate q (0, 0)%R.
Proof.
  intros H. apply clean_spectrum_inv in H as (_ & _ & Hwarn & Hfill).
  destruct (py_any idx); [|by apply Hwarn].
  destruct (Hfill eq_refl) as [H _]. unfold fill_band in H.
  apply bind_result_ok in H as (below & Hbelow & H).
  apply bind_result_ok in H as (above & Habove & H).
  destruct (forallb _ idx); [|discriminate]. injection H as <-.
  apply np_index_zero in Hbelow as ->.
  apply np_index_zero in Habove as ->.
  apply assign_at_zero. unfold linspace.
  apply List.Forall_forall. intros v Hv.
  apply in_map_iff in Hv as (j & <- & _).
  unfold Cadd, Cscale, Csub. simpl. f_equal; ring.
Qed.

(** Whenever the filter returns on a series of zeros, whatever the
    band, the series is a series of zeros of the same length after the
    call. *)
Theorem zero_series_unchanged (arr out : DataArray) (freq radius : Q)
    (plot : bool) (h h' : heap) (log : list event) (m : nat) :
  h !!! data arr = replicate m 0%R ->
  _remove_seasonality_fourier arr freq radius plot h = (h', log, Ok out) ->
  h' !!! data arr = replicate m 0%R.
Proof.
  intros Hbuf H.
  apply fourier_ok_inv in H
    as (sp & np & yf & xf & yfc & y & lg & _ & Hyf & _ & Hcl & Hy & -> & _).
  rewrite lookup_total_insert_eq, Hbuf in *.
  assert (Hm : (1 <= m)%nat).
  { apply rfft_length in Hyf as [_ Hne]. rewrite length_replicate in Hne.
    lia. }
  rewrite (rfft_zero m Hm) in Hyf. injection Hyf as <-.
  apply clean_spectrum_zero in Hcl as ->.
  apply irfft_zero in Hy as ->.
  rewrite length_replicate, drop_replicate, <- replicate_add.
  f_equal. set (q := (Nat.divmod m 1 0 1).1).
  assert (Hq : (2 * q <= m)%nat) by apply (Nat.Div0.mul_div_le m 2). lia.
Qed.

Lemma zero_series_unchanged_witness :
  exists h' log out,
    _remove_seasonality_fourier even_series 1 (1 # 100) false zero_heap
      = (h', log, Ok out) /\
    h' !!! data even_series = replicate 4 0%R.
Proof.
  assert (Hbuf : zero_heap !!! data even_series = replicate 4 0%R)
    by apply lookup_total_singleton_eq.
  destruct even_series_bins as [Hsp Hxf].
  destruct (fourier_run_unfiltered zero_heap even_series 1 (1 # 100) false
              _ _ _ Hsp Hxf) as (yf & y & _ & _ & Hrun).
  - vm_compute. reflexivity.
  - rewrite Hbuf. simpl. lia.
  - eexists _, _, _. split; [exact Hrun|].
    exact (zero_series_unchanged _ _ _ _ _ _ _ _ 4 Hbuf Hrun).
Defined.

(** *** Which buffers a call touches *)

Lemma for_each_fourier (arrs outs : list DataArray) (freq radius : Q)
    (plot : bool) (h h' : heap) (log : list event) :
  for_each (fun arr => _remove_seasonality_fourier arr freq radius plot)
    arrs h = (h', log, Ok outs) ->
  outs = arrs /\
  forall l, ~ In l (map data arrs) -> h' !! l = h !! l.
Proof.
  revert outs h h' log. induction arrs as [|a arrs IH];
    intros outs h h' log H; simpl in H.
  - injection H as <- _ <-. auto.
  - apply run_bind_ok in H as (h1 & l1 & a' & l2 & Ha & H & _).
    apply run_bind_ok in H as (h2 & l3 & as' & l4 & Has & H & _).
    injection H as <- _ <-.
    destruct (IH _ _ _ _ Has) as [-> Hframe].
    pose proof (fourier_only_writes a freq radius plot _ _ _ _ Ha) as Hw.
    apply fourier_ok_inv in Ha as (? & ? & ? & ? & ? & ? & ? & Hout).
    destruct Hout as (_ & _ & _ & _ & _ & _ & _ & ->).
    split; [by destruct a|].
    intros l Hl. simpl in Hl.
    rewrite Hframe by (intros Hin; apply Hl; by right).
    apply Hw. intros ->. apply Hl. by left.
Qed.

(** Whenever the call returns for a list, it returns the arrays it was
    given, on the same buffers, with their time axes and attributes; no
    buffer other than theirs has changed. *)
Theorem list_result_aliases (arrs outs : list DataArray) (freq radius : Q)
    (plot : bool) (h h' : heap) (log : list event) :
  remove_seasonality (Many arrs) freq radius plot h
    = (h', log, Ok (Many outs)) ->
  outs = arrs /\
  forall l, ~ In l (map data arrs) -> h' !! l = h !! l.
Proof.
  simpl. intros H.
  apply run_bind_ok in H as (h1 & l1 & outs' & l2 & Hloop & H & _).
  injection H as <- _ <-. by apply for_each_fourier in Hloop.
Qed.

Lemma list_result_aliases_witness :
  exists h' log outs,
    remove_seasonality (Many [even_series]) 1 (1 # 100) false even_heap
      = (h', log, Ok (Many outs)) /\
    outs = [even_series].
Proof.
  destruct (even_series_run 1 (1 # 100)) as (yf & y & _ & _ & _ & Hrun);
    [vm_compute; reflexivity|].
  specialize (Hrun even_heap 0%nat {[ "ensemble" := "ens1" ]}
                even_heap_buffer).
  assert (Hmany : remove_seasonality (Many [even_series]) 1 (1 # 100) false
                    even_heap
                  = (<[0%nat := y]> even_heap,
                     [Print warning_line; Print hint_line],
                     Ok (Many [even_series]))).
  { simpl. rewrite bind_run. simpl. rewrite bind_run.
    unfold even_series. rewrite Hrun. reflexivity. }
  eexists _, _, _. split; [exact Hmany|].
  exact (proj1 (list_result_aliases _ _ _ _ _ _ _ _ Hmany)).
Defined.

(** A call on a single array changes no buffer the store held before
    the call, whatever its outcome; the array it returns lives in a
    buffer that did not exist before, with the time axis and the
    attributes of the array passed. *)
Theorem single_array_isolated (arr : DataArray) (freq radius : Q)
    (plot : bool) (h h' : heap) (log : list event) (r : result arrays_arg) :
  remove_seasonality (One arr) freq radius plot h = (h', log, r) ->
  (forall l, is_Some (h !! l) -> h' !! l = h !! l) /\
  (forall outs, r <> Ok (Many outs)) /\
  (forall out, r = Ok (One out) ->
     h !! data out = None /\ time out = time arr /\ attrs out = attrs arr).
Proof.
  rewrite remove_one_run. cbv zeta. set (l := fresh (dom h)).
  assert (Hfresh : h !! l = None).
  { apply not_elem_of_dom. apply is_fresh. }
  set (c := mkDA l (time arr) (attrs arr)).
  destruct (_remove_seasonality_fourier c freq radius plot _)
    as [[h2 lg] r2] eqn:E.
  pose proof (fourier_only_writes c freq radius plot _ _ _ _ E) as Hw.
  intros H. assert (h' = h2) as ->.
  { destruct r2; by injection H as <- _ _. }
  split; [|split].
  - intros l' [v Hv]. rewrite Hw.
    + apply lookup_insert_ne. intros <-. congruence.
    + simpl. intros ->. congruence.
  - intros outs ->. destruct r2; discriminate.
  - intros out ->. destruct r2 as [o|e]; [|discriminate].
    injection H as _ <-.
    apply fourier_ok_inv in E as (? & ? & ? & ? & ? & ? & ? & Hout).
    destruct Hout as (_ & _ & _ & _ & _ & _ & _ & ->). simpl. auto.
Qed.

Lemma single_array_isolated_witness :
  (remove_seasonality (One even_series) 1 (1 # 100) false even_heap).1.1
    !! 0%nat = even_heap !! 0%nat.
Proof.
  destruct (remove_seasonality (One even_series) 1 (1 # 100) false even_heap)
    as [[h' log] r] eqn:E.
  destruct (single_array_isolated _ _ _ _ _ _ _ _ E) as [Hframe _].
  apply Hframe. eexists. apply lookup_singleton_eq.
Defined.

End FilterExtra.

(** ** The figure script *)

Section GenFigsFacts.
Import GenFigs.

(** When the first four scripts complete, [main] completes exactly when
    the fifth completes or raises [NotImplementedError], with the traces
    of the five in order; any other exception of the fifth script is
    raised by [main]. *)
Theorem fifth_script_suppressed (s : Scripts) (show_output : bool)
    (t1 t2 t3 t4 : list event) :
  gen_fig1 s show_output = (t1, Done) ->
  gen_fig2 s show_output = (t2, Done) ->
  gen_fig3 s show_output = (t3, Done) ->
  gen_fig4 s show_output = (t4, Done) ->
  main s show_output =
    (t1 ++ t2 ++ t3 ++ t4 ++ (gen_fig5 s).1,
     match (gen_fig5 s).2 with
     | Raised (OtherError name) => Raised (OtherError name)
     | _ => Done
     end).
Proof.
  intros H1 H2 H3 H4. unfold main. rewrite H1, H2, H3, H4.
  destruct (gen_fig5 s) as [t5 [|[|name]]]; reflexivity.
Qed.

Lemma fifth_script_suppressed_witness :
  main (sample_scripts Done) true =
    ([Print "fig1"; Print "fig2"; Print "fig3"; Print "fig4"; Print "fig5"],
     Done).
Proof.
  apply (fifth_script_suppressed (sample_scripts Done) true
           [Print "fig1"] [Print "fig2"] [Print "fig3"] [Print "fig4"]);
    reflexivity.
Defined.

(** An exception of one of the first four scripts is raised by [main],
    [NotImplementedError] included, and the scripts after it are not
    run: for the second script, the trace ends with its own. *)
Theorem early_failure_not_suppressed (s : Scripts) (show_output : bool)
    (t1 t2 : list event) (e : script_exn) :
  gen_fig1 s show_output = (t1, Done) ->
  gen_fig2 s show_output = (t2, Raised e) ->
  main s show_output = (t1 ++ t2, Raised e).
Proof.
  intros H1 H2. unfold main. rewrite H1, H2. reflexivity.
Qed.

Lemma early_failure_not_suppressed_witness :
  main (sample_scripts (Raised NotImplementedError)) false =
    ([Print "fig1"; Print "fig2"], Raised NotImplementedError).
Proof.
  apply (early_failure_not_suppressed
           (sample_scripts (Raised NotImplementedError)) false
           [Print "fig1"] [Print "fig2"]); reflexivity.
Defined.

End GenFigsFacts.
